(** * USPTO bulk file processor: the three converters of [src/converters.ts]

    A shallow embedding of [convertUsptoVersion4XmlDataToJs],
    [convertUsptoVersion2XmlDataToJs] and [convertUsptoPftapsDataToJs],
    together with the JavaScript string, array and object operations they
    are written with, and the properties of the extraction engine.

    Modelling conventions.
    - A JavaScript string is a [string]: a sequence of code units, of which
      the embedding keeps those below 256.  On these the class [\s] of the
      regular expressions and the set removed by [trim] are both
      TAB, LF, VT, FF, CR, SPACE and NBSP.
    - An [async] function that resolves is [Returned], one that rejects (an
      exception escaped its body) is [Thrown].
    - The XML parser [xml2js] is not part of the repository: the two XML
      converters take it as a parameter [parseStringPromise], and a parsed
      document is a [JsValue]. *)

From Stdlib Require Import String Ascii List Bool Arith Lia.
Import ListNotations.
Local Open Scope string_scope.
Local Open Scope list_scope.

(** ** Exceptions *)

Inductive JsError : Type :=
| TypeError     (* property access on null or undefined, iteration over null *)
| ParseError.   (* rejection of the XML parser *)

Inductive outcome (A : Type) : Type :=
| Returned (a : A)
| Thrown (e : JsError).
Arguments Returned {A} a.
Arguments Thrown {A} e.

Definition bind {A B : Type} (m : outcome A) (k : A -> outcome B) : outcome B :=
  match m with
  | Returned a => k a
  | Thrown e => Thrown e
  end.

Notation "x <- m ;; k" := (bind m (fun x => k))
  (at level 61, m at next level, right associativity).

(** [for (let x of xs) body], with the loop-carried variables as [acc]:
    an exception thrown by one iteration ends the loop. *)
Fixpoint forOf {A S : Type} (xs : list A) (body : S -> A -> outcome S) (acc : S)
  : outcome S :=
  match xs with
  | [] => Returned acc
  | x :: rest => acc' <- body acc x ;; forOf rest body acc'
  end.

(** ** JavaScript strings *)

Module JsString.

Definition TAB : ascii := ascii_of_nat 9.
Definition LF : ascii := ascii_of_nat 10.
Definition CR : ascii := ascii_of_nat 13.
Definition DQUOTE : ascii := ascii_of_nat 34.
Definition BACKSLASH : ascii := ascii_of_nat 92.

(** The line terminator ['\r\n'] of the legacy dialect. *)
Definition CRLF : string := String CR (String LF EmptyString).

(** [\s], and the characters removed by [trim]. *)
Definition isSpace (c : ascii) : bool :=
  let n := nat_of_ascii c in
  (((9 <=? n) && (n <=? 13)) || (n =? 32) || (n =? 160))%nat.

(** [[0-9]] *)
Definition isDigit (c : ascii) : bool :=
  let n := nat_of_ascii c in ((48 <=? n) && (n <=? 57))%nat.

(** Canonicalisation of the [i] flag (without [u]): a code unit is compared
    through its upper-case form; an ASCII letter of a pattern is only met
    by an ASCII letter of the text. *)
Definition canonicalize (c : ascii) : ascii :=
  let n := nat_of_ascii c in
  if ((97 <=? n) && (n <=? 122))%nat then ascii_of_nat (n - 32) else c.

(** [s.startsWith(p)] *)
Fixpoint startsWith (s p : string) {struct p} : bool :=
  match p, s with
  | EmptyString, _ => true
  | String a p', String b s' => Ascii.eqb a b && startsWith s' p'
  | String _ _, EmptyString => false
  end.

(** The same test under the [i] flag. *)
Fixpoint startsWithCI (s p : string) {struct p} : bool :=
  match p, s with
  | EmptyString, _ => true
  | String a p', String b s' =>
      Ascii.eqb (canonicalize a) (canonicalize b) && startsWithCI s' p'
  | String _ _, EmptyString => false
  end.

Fixpoint drop (n : nat) (s : string) : string :=
  match n, s with
  | 0, _ => s
  | S k, String _ s' => drop k s'
  | S _, EmptyString => EmptyString
  end.

Fixpoint take (n : nat) (s : string) : string :=
  match n, s with
  | 0, _ => EmptyString
  | S k, String c s' => String c (take k s')
  | S _, EmptyString => EmptyString
  end.

(** Leftmost occurrence of [sep] in [s]: the text before it and the text
    after it. *)
Fixpoint cut (sep s : string) {struct s} : option (string * string) :=
  if startsWith s sep then Some (EmptyString, drop (String.length sep) s)
  else match s with
       | EmptyString => None
       | String c s' =>
           match cut sep s' with
           | Some (b, a) => Some (String c b, a)
           | None => None
           end
       end.

Fixpoint cutCI (sep s : string) {struct s} : option (string * string) :=
  if startsWithCI s sep then Some (EmptyString, drop (String.length sep) s)
  else match s with
       | EmptyString => None
       | String c s' =>
           match cutCI sep s' with
           | Some (b, a) => Some (String c b, a)
           | None => None
           end
       end.

Fixpoint splitFuel (fuel : nat) (sep s : string) : list string :=
  match fuel with
  | 0 => [s]
  | S k =>
      match cut sep s with
      | None => [s]
      | Some (b, a) => b :: splitFuel k sep a
      end
  end.

(** [s.split(sep)] for a non-empty separator [sep]: the pieces between the
    non-overlapping occurrences of [sep], found from the left.  Splitting on
    a regular expression that is a literal, as [/PATN\r\n/gm], is the same
    function. *)
Definition split (s sep : string) : list string := splitFuel (String.length s) sep s.

(** ** Splitting on [/(A|B)tail/gm]: the captured group is spliced in *)

Fixpoint matchAlt (alts : list string) (tail s : string)
  : option (string * string) :=
  match alts with
  | [] => None
  | a :: rest =>
      if startsWith s (a ++ tail)%string
      then Some (a, drop (String.length (a ++ tail)%string) s)
      else matchAlt rest tail s
  end.

Fixpoint cutAlt (alts : list string) (tail s : string) {struct s}
  : option (string * string * string) :=
  match matchAlt alts tail s with
  | Some (cap, a) => Some (EmptyString, cap, a)
  | None =>
      match s with
      | EmptyString => None
      | String c s' =>
          match cutAlt alts tail s' with
          | Some (b, cap, a) => Some (String c b, cap, a)
          | None => None
          end
      end
  end.

Fixpoint splitAltFuel (fuel : nat) (alts : list string) (tail s : string)
  : list string :=
  match fuel with
  | 0 => [s]
  | S k =>
      match cutAlt alts tail s with
      | None => [s]
      | Some (b, cap, a) => b :: cap :: splitAltFuel k alts tail a
      end
  end.

Definition splitAlt (s : string) (alts : list string) (tail : string)
  : list string :=
  splitAltFuel (String.length s) alts tail s.

(** ** [trim] *)

Fixpoint trimStart (s : string) : string :=
  match s with
  | EmptyString => EmptyString
  | String c s' => if isSpace c then trimStart s' else s
  end.

Fixpoint trimEnd (s : string) : string :=
  match s with
  | EmptyString => EmptyString
  | String c s' =>
      match trimEnd s' with
      | EmptyString => if isSpace c then EmptyString else String c EmptyString
      | t => String c t
      end
  end.

Definition trim (s : string) : string := trimEnd (trimStart s).

(** ** [s.match(/[<]open\s.*?[<][/]open[>]/gmis)]

    At a position the expression matches when the opening text is there
    (any letter case), followed by one white-space character; the lazy
    [.*?] (with the [s] flag a dot is any character) then stops at the
    first closing text.  The result of [match] with the [g] flag is the
    array of the matched texts, and [null] when there is none. *)

Definition matchSpanAt (opening closing s : string) : option nat :=
  if startsWithCI s opening then
    match drop (String.length opening) s with
    | String w rest =>
        if isSpace w then
          match cutCI closing rest with
          | Some (b, _) =>
              Some (String.length opening + 1 + String.length b + String.length closing)
          | None => None
          end
        else None
    | EmptyString => None
    end
  else None.

Fixpoint matchAllFuel (fuel : nat) (opening closing s : string) : list string :=
  match fuel with
  | 0 => []
  | S k =>
      match s with
      | EmptyString => []
      | String _ s' =>
          match matchSpanAt opening closing s with
          | Some n => take n s :: matchAllFuel k opening closing (drop n s)
          | None => matchAllFuel k opening closing s'
          end
      end
  end.

Definition matchSpans (s opening closing : string) : option (list string) :=
  match matchAllFuel (String.length s) opening closing s with
  | [] => None
  | l => Some l
  end.

End JsString.

Import JsString.

(** ** JavaScript values *)

(** The values the converters handle: the documents of the XML parser
    (strings, arrays, and objects whose properties are kept in enumeration
    order) and the fields of a patent record. *)
#[warnings="-register-all"]
Inductive JsValue : Type :=
| JUndefined
| JNull
| JStr (s : string)
| JArr (items : list JsValue)
| JObj (props : list (string * JsValue)).

Module Js.

Definition ofOption (o : option string) : JsValue :=
  match o with
  | Some s => JStr s
  | None => JNull
  end.

(** [value === null] *)
Definition isNull (v : JsValue) : bool :=
  match v with
  | JNull => true
  | _ => false
  end.

Fixpoint lookup (k : string) (props : list (string * JsValue)) : JsValue :=
  match props with
  | [] => JUndefined
  | (k', v) :: rest => if String.eqb k k' then v else lookup k rest
  end.

(** [v['k']] for a property name [k] that is neither an array index nor a
    name found on a prototype (no key of the converters is): reading a
    property of [null] or [undefined] throws, a string or an array has no
    such property. *)
Definition getKey (v : JsValue) (k : string) : outcome JsValue :=
  match v with
  | JUndefined | JNull => Thrown TypeError
  | JStr _ | JArr _ => Returned JUndefined
  | JObj props => Returned (lookup k props)
  end.

(** [v[0]]: the first element of an array, the first character of a
    string, the property ['0'] of an object. *)
Definition getFirst (v : JsValue) : outcome JsValue :=
  match v with
  | JUndefined | JNull => Thrown TypeError
  | JStr (String c _) => Returned (JStr (String c EmptyString))
  | JStr EmptyString => Returned JUndefined
  | JArr (x :: _) => Returned x
  | JArr [] => Returned JUndefined
  | JObj props => Returned (lookup "0" props)
  end.

(** A lookup path as the source writes it: [t['a'][0]['$']['b']] is
    [getPath t [Key "a"; First; Key "$"; Key "b"]]. *)
Inductive step : Type :=
| Key (k : string)
| First.

Definition getStep (v : JsValue) (st : step) : outcome JsValue :=
  match st with
  | Key k => getKey v k
  | First => getFirst v
  end.

Fixpoint getPath (v : JsValue) (path : list step) : outcome JsValue :=
  match path with
  | [] => Returned v
  | st :: rest => w <- getStep v st ;; getPath w rest
  end.

(** [v.map(f)]: only an array has the method. *)
Definition arrayMap (v : JsValue) (f : JsValue -> outcome JsValue)
  : outcome JsValue :=
  match v with
  | JArr items =>
      out <- forOf items (fun acc x => y <- f x ;; Returned (acc ++ [y])) [] ;;
      Returned (JArr out)
  | _ => Thrown TypeError
  end.

(** [try { field = e } catch (parsingError) { field = null }] *)
Definition tryOrNull (e : outcome JsValue) : JsValue :=
  match e with
  | Returned v => v
  | Thrown _ => JNull
  end.

(** *** [JSON.stringify] *)

Definition hexDigit (n : nat) : ascii :=
  if (n <? 10)%nat then ascii_of_nat (48 + n) else ascii_of_nat (87 + n).

Definition quoteChar (c : ascii) : string :=
  let n := nat_of_ascii c in
  if (n =? 34)%nat then String BACKSLASH (String DQUOTE EmptyString)
  else if (n =? 92)%nat then String BACKSLASH (String BACKSLASH EmptyString)
  else if (n =? 8)%nat then String BACKSLASH "b"
  else if (n =? 9)%nat then String BACKSLASH "t"
  else if (n =? 10)%nat then String BACKSLASH "n"
  else if (n =? 12)%nat then String BACKSLASH "f"
  else if (n =? 13)%nat then String BACKSLASH "r"
  else if (n <? 32)%nat
       then String BACKSLASH
              (String.append "u00"
                 (String (hexDigit (n / 16)) (String (hexDigit (n mod 16)) EmptyString)))
  else String c EmptyString.

Fixpoint quoteBody (s : string) : string :=
  match s with
  | EmptyString => EmptyString
  | String c s' => String.append (quoteChar c) (quoteBody s')
  end.

Definition quote (s : string) : string :=
  String DQUOTE (String.append (quoteBody s) (String DQUOTE EmptyString)).

(** [JSON.stringify v]; [None] is the result [undefined].  Inside an array
    [undefined] is written [null], inside an object the property is left
    out. *)
Fixpoint stringify (v : JsValue) : option string :=
  match v with
  | JUndefined => None
  | JNull => Some "null"
  | JStr s => Some (quote s)
  | JArr items =>
      Some (String.append "["
             (String.append
                (String.concat ","
                   (map (fun x => match stringify x with
                                  | Some s => s
                                  | None => "null"
                                  end) items))
                "]"))
  | JObj props =>
      Some (String.append "{"
             (String.append
                (String.concat ","
                   (flat_map (fun p => match stringify (snd p) with
                                       | Some s => [String.append (quote (fst p))
                                                      (String.append ":" s)]
                                       | None => []
                                       end) props))
                "}"))
  end.

Definition JSON_stringify (v : JsValue) : JsValue :=
  match stringify v with
  | Some s => JStr s
  | None => JUndefined
  end.

End Js.

Import Js.

(** ** The patent record *)

(** The object [processedPatentData] the converters fill, with its
    properties in the order they are assigned.  [UsptoPatentSchemaData] is
    the same object after [patentClaims] has been replaced by its JSON
    text. *)
Record UsptoPatentData : Type := {
  applicationNumber : JsValue;
  type : JsValue;
  language : JsValue;
  country : JsValue;
  dateProduced : JsValue;
  datePublished : JsValue;
  dtdVersion : JsValue;
  fileName : JsValue;
  patentStatus : JsValue;
  patentClaims : JsValue;
  inventionTitle : JsValue;
  inventionId : JsValue
}.

Definition UsptoPatentSchemaData : Type := UsptoPatentData.

(** The twelve property names. *)
Inductive Field : Type :=
| ApplicationNumber | RecordType | Language | Country | DateProduced
| DatePublished | DtdVersion | FileName | PatentStatus | PatentClaims
| InventionTitle | InventionId.

Definition allFields : list Field :=
  [ApplicationNumber; RecordType; Language; Country; DateProduced;
   DatePublished; DtdVersion; FileName; PatentStatus; PatentClaims;
   InventionTitle; InventionId].

Definition getField (f : Field) (d : UsptoPatentData) : JsValue :=
  match f with
  | ApplicationNumber => applicationNumber d
  | RecordType => type d
  | Language => language d
  | Country => country d
  | DateProduced => dateProduced d
  | DatePublished => datePublished d
  | DtdVersion => dtdVersion d
  | FileName => fileName d
  | PatentStatus => patentStatus d
  | PatentClaims => patentClaims d
  | InventionTitle => inventionTitle d
  | InventionId => inventionId d
  end.

(** The object whose property [f] holds [g f]. *)
Definition fromFields (g : Field -> JsValue) : UsptoPatentData :=
  {| applicationNumber := g ApplicationNumber;
     type := g RecordType;
     language := g Language;
     country := g Country;
     dateProduced := g DateProduced;
     datePublished := g DatePublished;
     dtdVersion := g DtdVersion;
     fileName := g FileName;
     patentStatus := g PatentStatus;
     patentClaims := g PatentClaims;
     inventionTitle := g InventionTitle;
     inventionId := g InventionId |}.

(** Each property is assigned in a [try] block of its own, whose [catch]
    assigns [null]: [tries f] is the right-hand side of the assignment in
    the [try] block of the property [f]. *)
Definition processTries (tries : Field -> outcome JsValue) : UsptoPatentData :=
  fromFields (fun f => tryOrNull (tries f)).

(** [Object.values] *)
Definition Object_values (d : UsptoPatentData) : list JsValue :=
  map (fun f => getField f d) allFields.

(** [{ ...typedPatentProcessedData,
       patentClaims: JSON.stringify(typedPatentProcessedData.patentClaims) }] *)
Definition toSchemaData (d : UsptoPatentData) : UsptoPatentSchemaData :=
  fromFields (fun f => match f with
                       | PatentClaims => JSON_stringify (patentClaims d)
                       | _ => getField f d
                       end).

(** [!Object.values(processedPatentSchemaData).every(value => value === null)] *)
Definition notEveryNull (d : UsptoPatentSchemaData) : bool :=
  negb (forallb isNull (Object_values d)).

(** A field is absent when it holds [null] or [undefined]. *)
Definition absent (v : JsValue) : Prop := v = JNull \/ v = JUndefined.

Definition isAbsent (v : JsValue) : bool :=
  match v with
  | JNull | JUndefined => true
  | _ => false
  end.

(** The candidate record has every one of its twelve fields absent. *)
Definition everyFieldAbsent (d : UsptoPatentData) : bool :=
  forallb isAbsent (Object_values d).

(** ** Version 4 XML (current dialect) *)

Module Version4.

Definition openingTag : string := "<us-patent-grant".
Definition closingTag : string := "</us-patent-grant>".

Definition root : list step := [Key "us-patent-grant"].
Definition bibliographic : list step :=
  root ++ [Key "us-bibliographic-data-grant"; First].

Definition tries (parsedPatentData : JsValue) (f : Field) : outcome JsValue :=
  match f with
  | ApplicationNumber =>
      getPath parsedPatentData
        (bibliographic ++ [Key "publication-reference"; First; Key "document-id";
                           First; Key "doc-number"; First])
  | RecordType =>
      getPath parsedPatentData
        (bibliographic ++ [Key "application-reference"; First; Key "$";
                           Key "appl-type"])
  | Language => getPath parsedPatentData (root ++ [Key "$"; Key "lang"])
  | Country => getPath parsedPatentData (root ++ [Key "$"; Key "country"])
  | DateProduced => getPath parsedPatentData (root ++ [Key "$"; Key "date-produced"])
  | DatePublished => getPath parsedPatentData (root ++ [Key "$"; Key "date-publ"])
  | DtdVersion => getPath parsedPatentData (root ++ [Key "$"; Key "dtd-version"])
  | FileName => getPath parsedPatentData (root ++ [Key "$"; Key "file"])
  | PatentStatus => getPath parsedPatentData (root ++ [Key "$"; Key "status"])
  | PatentClaims =>
      claims <- getPath parsedPatentData (root ++ [Key "claims"; First; Key "claim"]) ;;
      arrayMap claims (fun claim => getPath claim [Key "claim-text"; First])
  | InventionTitle =>
      getPath parsedPatentData
        (bibliographic ++ [Key "invention-title"; First; Key "_"])
  | InventionId =>
      getPath parsedPatentData
        (bibliographic ++ [Key "invention-title"; First; Key "$"; Key "id"])
  end.

Definition processedPatentData (parsedPatentData : JsValue) : UsptoPatentData :=
  processTries (tries parsedPatentData).

(** The body of the loop: every record is pushed. *)
Definition body (parseStringPromise : string -> outcome JsValue)
    (usptoBulkPatentData : list UsptoPatentSchemaData) (patentXmlSection : string)
  : outcome (list UsptoPatentSchemaData) :=
  parsedPatentData <- parseStringPromise patentXmlSection ;;
  Returned (usptoBulkPatentData ++ [toSchemaData (processedPatentData parsedPatentData)]).

End Version4.

(** [for (let patentXmlSection of patentXmlSections)]: iterating over the
    [null] that [match] returns when nothing matches throws a [TypeError]. *)
Definition forOfSections {S : Type} (patentXmlSections : option (list string))
    (body : S -> string -> outcome S) (acc : S) : outcome S :=
  match patentXmlSections with
  | None => Thrown TypeError
  | Some sections => forOf sections body acc
  end.

Definition convertUsptoVersion4XmlDataToJs
    (parseStringPromise : string -> outcome JsValue) (xmlData : string)
  : outcome (list UsptoPatentSchemaData) :=
  let patentXmlSections :=
    matchSpans xmlData Version4.openingTag Version4.closingTag in
  forOfSections patentXmlSections (Version4.body parseStringPromise) [].

(** ** Version 2 XML (older dialect) *)

Module Version2.

Definition openingTag : string := "<PATDOC".
Definition closingTag : string := "</PATDOC>".

Definition bibliographic : list step := [Key "PATDOC"; Key "SDOBI"; First].

Definition tries (parsedPatentData : JsValue) (xmlFileName : option string)
    (f : Field) : outcome JsValue :=
  match f with
  | ApplicationNumber =>
      getPath parsedPatentData
        (bibliographic ++ [Key "B100"; First; Key "B110"; First; Key "DNUM"; First;
                           Key "PDAT"; First])
  | RecordType => Returned JNull
  | Language => Returned JNull
  | Country =>
      getPath parsedPatentData
        (bibliographic ++ [Key "B100"; First; Key "B190"; First; Key "PDAT"; First])
  | DateProduced =>
      getPath parsedPatentData
        (bibliographic ++ [Key "B100"; First; Key "B140"; First; Key "DATE"; First;
                           Key "PDAT"; First])
  | DatePublished =>
      getPath parsedPatentData
        (bibliographic ++ [Key "B200"; First; Key "B220"; First; Key "DATE"; First;
                           Key "PDAT"; First])
  | DtdVersion => getPath parsedPatentData [Key "PATDOC"; Key "$"; Key "DTD"]
  | FileName => Returned (ofOption xmlFileName)
  | PatentStatus => getPath parsedPatentData [Key "PATDOC"; Key "$"; Key "STATUS"]
  | PatentClaims =>
      claims <- getPath parsedPatentData [Key "PATDOC"; Key "SDOCL"; First; Key "CL"] ;;
      arrayMap claims
        (fun claim => getPath claim [Key "CLM"; First; Key "PARA"; First;
                                     Key "PTEXT"; First; Key "PDAT"; First])
  | InventionTitle =>
      getPath parsedPatentData
        (bibliographic ++ [Key "B500"; First; Key "B540"; First; Key "STEXT"; First;
                           Key "PDAT"; First])
  | InventionId =>
      getPath parsedPatentData
        (bibliographic ++ [Key "B500"; First; Key "B540"; First; Key "STEXT"; First;
                           Key "PDAT"; First])
  end.

Definition processedPatentData (parsedPatentData : JsValue)
    (xmlFileName : option string) : UsptoPatentData :=
  processTries (tries parsedPatentData xmlFileName).

Definition body (parseStringPromise : string -> outcome JsValue)
    (xmlFileName : option string)
    (usptoBulkPatentData : list UsptoPatentSchemaData) (patentXmlSection : string)
  : outcome (list UsptoPatentSchemaData) :=
  parsedPatentData <- parseStringPromise patentXmlSection ;;
  let processedPatentSchemaData :=
    toSchemaData (processedPatentData parsedPatentData xmlFileName) in
  Returned (if notEveryNull processedPatentSchemaData
            then usptoBulkPatentData ++ [processedPatentSchemaData]
            else usptoBulkPatentData).

End Version2.

Definition convertUsptoVersion2XmlDataToJs
    (parseStringPromise : string -> outcome JsValue)
    (xmlData : string) (xmlFileName : option string)
  : outcome (list UsptoPatentSchemaData) :=
  let patentXmlSections :=
    matchSpans xmlData Version2.openingTag Version2.closingTag in
  forOfSections patentXmlSections (Version2.body parseStringPromise xmlFileName) [].

(** ** Pftaps text (legacy dialect) *)

Module Pftaps.

(** The record-start marker [/PATN\r\n/gm]. *)
Definition recordMarker : string := String.append "PATN" CRLF.

(** [pftapsData.split(/PATN\r\n/gm).slice(1)] *)
Definition sections (pftapsData : string) : list string :=
  tl (split pftapsData recordMarker).

(** [patentPftapsSection.split('\r\n')] *)
Definition lines (patentPftapsSection : string) : list string :=
  split patentPftapsSection CRLF.

(** [lines.filter(section => section.startsWith(prefix))[0].split(prefix)[1]]:
    [split] is called on [undefined] when no line has the prefix. *)
Definition prefixed (patentPftapsSection prefix : string) : outcome JsValue :=
  match filter (fun section => startsWith section prefix) (lines patentPftapsSection) with
  | [] => Thrown TypeError
  | line :: _ =>
      Returned (match nth_error (split line prefix) 1 with
                | Some text => JStr text
                | None => JUndefined
                end)
  end.

(** [/^DCLM\r\n$/.test(patentLine)]: without the [m] flag the anchors are
    the two ends of the line. *)
Definition testDesignMarker (patentLine : string) : bool :=
  String.eqb patentLine (String.append "DCLM" CRLF).

(** *** The regular expressions of the claim loop *)

(** [\s{2}] at the start of [s]: what follows it. *)
Definition twoSpaces (s : string) : option string :=
  match s with
  | String a (String b rest) => if isSpace a && isSpace b then Some rest else None
  | _ => None
  end.

Fixpoint skipDigits (s : string) : string :=
  match s with
  | EmptyString => EmptyString
  | String c s' => if isDigit c then skipDigits s' else s
  end.

(** [[0-9]{1,}[.]] at the start of [s]: what follows it. *)
Definition digitsDot (s : string) : option string :=
  match s with
  | String c s' =>
      if isDigit c then
        match skipDigits s' with
        | String d rest => if Ascii.eqb d "."%char then Some rest else None
        | EmptyString => None
        end
      else None
  | EmptyString => None
  end.

(** [/^NUM\s{2}[0-9]{1,}[.]$/.test(claimLine)] *)
Definition testNumber (claimLine : string) : bool :=
  startsWith claimLine "NUM" &&
  match twoSpaces (drop 3 claimLine) with
  | Some rest =>
      match digitsDot rest with
      | Some EmptyString => true
      | _ => false
      end
  | None => false
  end.

(** [/^STM\s{2}/.test(claimLine)] *)
Definition testStatement (claimLine : string) : bool :=
  startsWith claimLine "STM" &&
  match twoSpaces (drop 3 claimLine) with
  | Some _ => true
  | None => false
  end.

(** [claimLine.replace(/(^PAR\s{2}[0-9]{1,}[.])|(^(PA1|PAR|PAL)\s{2})/, '')]:
    the first alternative is tried first. *)
Definition replaceParagraphPrefix (claimLine : string) : string :=
  let numbered :=
    if startsWith claimLine "PAR" then
      match twoSpaces (drop 3 claimLine) with
      | Some rest => digitsDot rest
      | None => None
      end
    else None in
  match numbered with
  | Some rest => rest
  | None =>
      if startsWith claimLine "PA1" || startsWith claimLine "PAR"
         || startsWith claimLine "PAL"
      then match twoSpaces (drop 3 claimLine) with
           | Some rest => rest
           | None => claimLine
           end
      else claimLine
  end.

(** *** The claim loop *)

Record ClaimState : Type := {
  claimData : list string;
  claimNumber : string;
  accumulatedClaimLine : string
}.

Definition initialClaimState : ClaimState :=
  {| claimData := []; claimNumber := "1."; accumulatedClaimLine := EmptyString |}.

(** One iteration of [for (let claimLine of claimLines)]; [len] is
    [claimLines.length].  [claimLine.split('  ')[1].trim()] throws when the
    line has no two consecutive spaces. *)
Definition claimStep (len : nat) (st : ClaimState) (claimLine : string)
  : outcome ClaimState :=
  if testNumber claimLine then
    let pushed :=
      if String.eqb (accumulatedClaimLine st) EmptyString
      then claimData st
      else claimData st ++ [accumulatedClaimLine st] in
    match nth_error (split claimLine "  ") 1 with
    | None => Thrown TypeError
    | Some number =>
        Returned {| claimData := pushed;
                    claimNumber := trim number;
                    accumulatedClaimLine := EmptyString |}
    end
  else if testStatement claimLine then Returned st
  else
    let accumulated :=
      String.append (accumulatedClaimLine st)
        (String.append (trim (replaceParagraphPrefix claimLine)) " ") in
    Returned {| claimData := if (len =? 1)%nat
                             then claimData st ++ [accumulated]
                             else claimData st;
                claimNumber := claimNumber st;
                accumulatedClaimLine := accumulated |}.

(** [array.pop()] *)
Definition pop (l : list string) : option string :=
  match rev l with
  | [] => None
  | x :: _ => Some x
  end.

(** [patentPftapsSection.split(/(CLMS|DCLM)\r\n/gm).pop().trim().split('\r\n')] *)
Definition claimLines (patentPftapsSection : string) : outcome (list string) :=
  match pop (splitAlt patentPftapsSection ["CLMS"; "DCLM"] CRLF) with
  | None => Thrown TypeError
  | Some piece => Returned (split (trim piece) CRLF)
  end.

(** The claims of a list of claim lines: the loop, then
    [claimData.map(claim => claim.trim())]. *)
Definition assembleClaims (claimLines : list string) : outcome (list string) :=
  st <- forOf claimLines (claimStep (List.length claimLines)) initialClaimState ;;
  Returned (map trim (claimData st)).

Definition tries (patentPftapsSection : string) (pftapsFileName : option string)
    (f : Field) : outcome JsValue :=
  match f with
  | ApplicationNumber => prefixed patentPftapsSection "PNO  "
  | RecordType =>
      Returned (if existsb testDesignMarker (lines patentPftapsSection)
                then JStr "design"
                else JStr "utility")
  | Language => Returned JNull
  | Country => Returned JNull
  | DateProduced => prefixed patentPftapsSection "APD  "
  | DatePublished => prefixed patentPftapsSection "ISD  "
  | DtdVersion => Returned JNull
  | FileName => Returned (ofOption pftapsFileName)
  | PatentStatus => Returned JNull
  | PatentClaims =>
      claimLines <- claimLines patentPftapsSection ;;
      claimData <- assembleClaims claimLines ;;
      Returned (JArr (map JStr claimData))
  | InventionTitle => prefixed patentPftapsSection "TTL  "
  | InventionId => prefixed patentPftapsSection "ISD  "
  end.

Definition processedPatentData (patentPftapsSection : string)
    (pftapsFileName : option string) : UsptoPatentData :=
  processTries (tries patentPftapsSection pftapsFileName).

Definition body (pftapsFileName : option string)
    (usptoBulkPatentData : list UsptoPatentSchemaData) (patentPftapsSection : string)
  : outcome (list UsptoPatentSchemaData) :=
  let processedPatentSchemaData :=
    toSchemaData (processedPatentData patentPftapsSection pftapsFileName) in
  Returned (if notEveryNull processedPatentSchemaData
            then usptoBulkPatentData ++ [processedPatentSchemaData]
            else usptoBulkPatentData).

End Pftaps.

Definition convertUsptoPftapsDataToJs (pftapsData : string)
    (pftapsFileName : option string) : outcome (list UsptoPatentSchemaData) :=
  forOf (Pftaps.sections pftapsData) (Pftaps.body pftapsFileName) [].

(** ** Notions used by the properties *)

(** The texts [xs] occur in [s] one after the other, without overlap. *)
Inductive occurInOrder : list string -> string -> Prop :=
| occur_nil (s : string) : occurInOrder [] s
| occur_cons (x : string) (xs : list string) (pre post : string) :
    occurInOrder xs post ->
    occurInOrder (x :: xs) (String.append pre (String.append x post)).

(** The text of [s] up to the first occurrence of [sep] (all of [s] when
    there is none): the first piece of [s.split(sep)]. *)
Definition textBefore (sep s : string) : string :=
  match cut sep s with
  | Some (b, _) => b
  | None => s
  end.

(** A lookup fails when it throws or ends on [undefined]. *)
Definition lookupFails (e : outcome JsValue) : Prop :=
  match e with
  | Thrown _ => True
  | Returned v => v = JUndefined
  end.

(** [null], or an array. *)
Definition nullOrArray (v : JsValue) : Prop := v = JNull \/ exists l, v = JArr l.

(** The record a converter makes of one record substring. *)
Definition version4Record (parseStringPromise : string -> outcome JsValue)
    (patentXmlSection : string) : outcome UsptoPatentSchemaData :=
  parsedPatentData <- parseStringPromise patentXmlSection ;;
  Returned (toSchemaData (Version4.processedPatentData parsedPatentData)).

Definition version2Record (parseStringPromise : string -> outcome JsValue)
    (xmlFileName : option string) (patentXmlSection : string)
  : outcome UsptoPatentSchemaData :=
  parsedPatentData <- parseStringPromise patentXmlSection ;;
  Returned (toSchemaData (Version2.processedPatentData parsedPatentData xmlFileName)).

Definition pftapsRecord (pftapsFileName : option string)
    (patentPftapsSection : string) : UsptoPatentSchemaData :=
  toSchemaData (Pftaps.processedPatentData patentPftapsSection pftapsFileName).

(** The line prefix of the legacy dialect a field is read from. *)
Definition linePrefix (f : Field) : option string :=
  match f with
  | ApplicationNumber => Some "PNO  "
  | DateProduced => Some "APD  "
  | DatePublished => Some "ISD  "
  | InventionTitle => Some "TTL  "
  | InventionId => Some "ISD  "
  | _ => None
  end.

(** *** Sample inputs *)

(** The blob of the concrete scenario of the legacy dialect. *)
Definition widgetBlob : string :=
  String.concat CRLF
    ["PATN"; "PNO  12345"; "APD  19900101"; "TTL  A Widget"; "CLMS"; "NUM  1.";
     "PA1  A widget comprising X."; EmptyString].

(** A claim section with two claim-number markers, each followed by text. *)
Definition twoClaimLines : list string :=
  ["NUM  1."; "PA1  First claim."; "PAL  Its first part."; "NUM  2.";
   "PA1  Second claim."].

Definition twoClaimsSection : string :=
  String.concat CRLF (["PNO  1"; "CLMS"] ++ twoClaimLines ++ [EmptyString]).

(** A record of the legacy dialect with a design-claim marker line. *)
Definition designSection : string :=
  String.concat CRLF
    ["PNO  D0300001"; "TTL  Chair"; "DCLM"; "PAL  The ornamental design for a chair.";
     EmptyString].

(** A record whose application-number line is the prefix and nothing else. *)
Definition emptyNumberBlob : string :=
  String.concat CRLF ["PATN"; "PNO  "; EmptyString].

(** The document of an element without attributes or content, as in
    [<PATDOC ></PATDOC>]: the parser renders such an element as the empty
    string. *)
Definition emptyElement (name : string) : JsValue := JObj [(name, JStr EmptyString)].

(** A blob in which no span matches: the only record has no closing tag. *)
Definition unterminatedGrantBlob : string := "<us-patent-grant lang=EN><claims>".

Definition emptyPatdocText : string := "<PATDOC ></PATDOC>".
Definition emptyGrantText : string := "<us-patent-grant ></us-patent-grant>".

(** An older-XML record with a title and nothing else, and its document. *)
Definition titledPatdocText : string :=
  "<PATDOC ><SDOBI><B500><B540><STEXT><PDAT>Chair</PDAT></STEXT></B540></B500></SDOBI></PATDOC>".

Definition titledPatdoc : JsValue :=
  JObj [("PATDOC",
         JObj [("SDOBI",
                JArr [JObj [("B500",
                  JArr [JObj [("B540",
                    JArr [JObj [("STEXT",
                      JArr [JObj [("PDAT", JArr [JStr "Chair"])]])]])]])]])])].

(** A parser that knows these three documents only. *)
Definition sampleParser (text : string) : outcome JsValue :=
  if String.eqb text emptyPatdocText then Returned (emptyElement "PATDOC")
  else if String.eqb text emptyGrantText then Returned (emptyElement "us-patent-grant")
  else if String.eqb text titledPatdocText then Returned titledPatdoc
  else Thrown ParseError.

(** Two records of the older-XML dialect. *)
Definition twoPatdocsBlob : string :=
  String.append titledPatdocText (String.append CRLF emptyPatdocText).

(** The record every field of which is [null], but for the JSON text of
    its claims. *)
Definition nullRecord : UsptoPatentSchemaData :=
  fromFields (fun f => match f with
                       | PatentClaims => JStr "null"
                       | _ => JNull
                       end).

(** * The processor of [src/index.ts] and the store of [src/mongodb.ts] *)

(** ** The file system

    A store: a partial map from paths to file contents and a set of
    directories.  [dirname] gives the directory a path lies in.  A file that
    exists can be rewritten; a new file or a new directory can be made only
    in a directory that exists, and the call throws otherwise (ENOENT when
    there is no such directory, ENOTDIR when a regular file is in its
    place).  Permissions, quotas and the like are left out. *)

Module Fs.

Record FileSystem : Type := {
  files : string -> option string;
  directories : string -> bool
}.

Inductive Exception : Type :=
| NoSuchFile      (* ENOENT, ENOTDIR, EISDIR *)
| FileExists      (* EEXIST *)
| SyntaxError     (* JSON.parse *)
| NotAFunction.   (* TypeError: a method that the value does not have *)

Inductive completion (A : Type) : Type :=
| Done (a : A)
| Failed (e : Exception).
Arguments Done {A} a.
Arguments Failed {A} e.

(** [fs.existsSync(path)] *)
Definition existsSync (fs : FileSystem) (path : string) : bool :=
  match files fs path with
  | Some _ => true
  | None => directories fs path
  end.

(** The file system with the file at [path] holding [contents]. *)
Definition withFile (fs : FileSystem) (path contents : string) : FileSystem :=
  {| files := fun p => if String.eqb p path then Some contents else files fs p;
     directories := directories fs |}.

(** The file system with the directory [directory]. *)
Definition withDirectory (fs : FileSystem) (directory : string) : FileSystem :=
  {| files := files fs;
     directories := fun p => if String.eqb p directory then true else directories fs p |}.

(** [fs.readFileSync(path).toString()] *)
Definition readFileSync (fs : FileSystem) (path : string) : completion string :=
  match files fs path with
  | Some contents => Done contents
  | None => Failed NoSuchFile
  end.

Section WithDirname.

(** The directory a path lies in. *)
Variable dirname : string -> string.

(** [fs.writeFileSync(path, contents)] *)
Definition writeFileSync (fs : FileSystem) (path contents : string)
  : completion FileSystem :=
  match files fs path with
  | Some _ => Done (withFile fs path contents)
  | None =>
      if directories fs path then Failed NoSuchFile
      else if directories fs (dirname path) then Done (withFile fs path contents)
      else Failed NoSuchFile
  end.

(** [fs.mkdirSync(directory)], which is not recursive. *)
Definition mkdirSync (fs : FileSystem) (directory : string)
  : completion FileSystem :=
  if existsSync fs directory then Failed FileExists
  else if directories fs (dirname directory) then Done (withDirectory fs directory)
  else Failed NoSuchFile.

End WithDirname.

End Fs.

Import Fs.

(** ** The processor *)

Module Processor.

(** [syncUrls.includes(fileUrl)]: membership in an array, a search in a
    string; other values have no such method. *)
Definition includes (syncUrls : JsValue) (fileUrl : string) : completion bool :=
  match syncUrls with
  | JArr items =>
      Done (existsb (fun v => match v with
                              | JStr s => String.eqb s fileUrl
                              | _ => false
                              end) items)
  | JStr s =>
      Done (match cut fileUrl s with
            | Some _ => true
            | None => false
            end)
  | _ => Failed NotAFunction
  end.

(** [syncUrls.push(fileUrl)] *)
Definition push (syncUrls : JsValue) (fileUrl : string) : completion JsValue :=
  match syncUrls with
  | JArr items => Done (JArr (items ++ [JStr fileUrl]))
  | _ => Failed NotAFunction
  end.

Section WithLibraries.

Variable dirname : string -> string.

(** [JSON.parse], of the JavaScript library. *)
Variable JSON_parse : string -> completion JsValue.

(** [path.join], of the Node library. *)
Variable path_join : string -> string -> string.

(** The file that tracks the processed archives is made when it is not
    there: [if (!fs.existsSync(path)) { fs.writeFileSync(path, '[]') }]. *)
Definition ensureSyncFile (usptoSyncFilePath : string) (fs : FileSystem)
  : completion FileSystem :=
  if negb (existsSync fs usptoSyncFilePath)
  then writeFileSync dirname fs usptoSyncFilePath "[]"
  else Done fs.

(** The functions below return the file system they leave, and how they
    complete: an exception leaves the file system as it was when thrown. *)
Definition isInSyncFile (usptoSyncFilePath fileUrl : string) (fs : FileSystem)
  : FileSystem * completion bool :=
  match ensureSyncFile usptoSyncFilePath fs with
  | Failed e => (fs, Failed e)
  | Done fs =>
      (fs,
       match readFileSync fs usptoSyncFilePath with
       | Failed e => Failed e
       | Done syncFileContents =>
           match JSON_parse syncFileContents with
           | Failed e => Failed e
           | Done syncUrls => includes syncUrls fileUrl
           end
       end)
  end.

Definition saveToSyncFile (usptoSyncFilePath fileUrl : string) (fs : FileSystem)
  : FileSystem * completion unit :=
  match ensureSyncFile usptoSyncFilePath fs with
  | Failed e => (fs, Failed e)
  | Done fs =>
      match readFileSync fs usptoSyncFilePath with
      | Failed e => (fs, Failed e)
      | Done syncFileContents =>
          match JSON_parse syncFileContents with
          | Failed e => (fs, Failed e)
          | Done syncUrls =>
              match push syncUrls fileUrl with
              | Failed e => (fs, Failed e)
              | Done pushed =>
                  match stringify pushed with
                  | Some syncUrlsJson =>
                      match writeFileSync dirname fs usptoSyncFilePath syncUrlsJson with
                      | Done fs' => (fs', Done tt)
                      | Failed e => (fs, Failed e)
                      end
                  | None => (fs, Failed NotAFunction)
                  end
              end
          end
      end
  end.

(** [directory] is [None] for [null]. *)
Definition saveToLocalDirectory (directory : option string)
    (fileName contents : string) (fs : FileSystem) : FileSystem * completion unit :=
  match directory with
  | None => (fs, Done tt)
  | Some directory =>
      match (if negb (existsSync fs directory)
             then mkdirSync dirname fs directory
             else Done fs) with
      | Failed e => (fs, Failed e)
      | Done fs =>
          let filePath := path_join directory fileName in
          if negb (existsSync fs filePath)
          then match writeFileSync dirname fs filePath contents with
               | Done fs' => (fs', Done tt)
               | Failed e => (fs, Failed e)
               end
          else (fs, Done tt)
      end
  end.

End WithLibraries.

(** The choice of the converter in [processAndSaveUsptoData], by the prefix
    of the name of the archive; the converters are called without the file
    name.  [None] is the [undefined] that [usptoProcessedData] keeps when no
    prefix fits. *)
Definition usptoProcessedData (parseStringPromise : string -> outcome JsValue)
    (usptoZipFileName usptoData : string)
  : outcome (option (list UsptoPatentSchemaData)) :=
  if String.eqb (take 3 usptoZipFileName) "ipg" then
    out <- convertUsptoVersion4XmlDataToJs parseStringPromise usptoData ;;
    Returned (Some out)
  else if String.eqb (take 3 usptoZipFileName) "pg0" then
    out <- convertUsptoVersion2XmlDataToJs parseStringPromise usptoData None ;;
    Returned (Some out)
  else if String.eqb (take 6 usptoZipFileName) "pftaps" then
    out <- convertUsptoPftapsDataToJs usptoData None ;;
    Returned (Some out)
  else Returned None.

End Processor.

(** ** The MongoDB document *)

Module MongoDB.

(** The object given to [new UsptoData({...})] for one row. *)
Definition usptoData (usptoProcessDataRow : UsptoPatentSchemaData)
  : list (string * JsValue) :=
  [("patentApplicationNumber", applicationNumber usptoProcessDataRow);
   ("language", language usptoProcessDataRow);
   ("country", country usptoProcessDataRow);
   ("dateProduced", dateProduced usptoProcessDataRow);
   ("datePublished", datePublished usptoProcessDataRow);
   ("dtdVersion", dtdVersion usptoProcessDataRow);
   ("fileName", fileName usptoProcessDataRow);
   ("patentStatus", patentStatus usptoProcessDataRow);
   ("patentClaims", JSON_stringify (patentClaims usptoProcessDataRow));
   ("inventionTitle", inventionTitle usptoProcessDataRow);
   ("inventionId", inventionId usptoProcessDataRow)].

End MongoDB.

(** ** Further notions: the processor *)

(** The text [JSON.stringify] writes for an array of URLs. *)
Definition urlsJson (urls : list string) : string :=
  String.append "[" (String.append (String.concat "," (map quote urls)) "]").

(** The tracking file holds the list [urls]. *)
Definition ledgerHolds (JSON_parse : string -> completion JsValue)
    (usptoSyncFilePath : string) (fs : FileSystem) (urls : list string) : Prop :=
  exists text,
    files fs usptoSyncFilePath = Some text
    /\ JSON_parse text = Done (JArr (map JStr urls)).

(** The claims as the MongoDB document has them. *)
Definition storedClaims (row : UsptoPatentSchemaData) : JsValue :=
  lookup "patentClaims" (MongoDB.usptoData row).

(** A document of the current dialect with the given claim elements, and two
    claim elements of which the second has no claim text. *)
Definition grantWithClaims (claims : list JsValue) : JsValue :=
  JObj [("us-patent-grant",
         JObj [("claims", JArr [JObj [("claim", JArr claims)]])])].

Definition twoClaimElements : list JsValue :=
  [JObj [("claim-text", JArr [JStr "1. A widget."])]; JStr EmptyString].

(** A parser that knows the texts of two lists of URLs. *)
Definition ledgerParser (text : string) : completion JsValue :=
  if String.eqb text (urlsJson []) then Done (JArr [])
  else if String.eqb text (urlsJson ["a.zip"]) then Done (JArr [JStr "a.zip"])
  else if String.eqb text (urlsJson ["a.zip"; "b.zip"])
       then Done (JArr [JStr "a.zip"; JStr "b.zip"])
  else Failed SyntaxError.

(** The directory of a path written with slashes: the text before the last
    slash, and the working directory [.] for a plain name. *)
Fixpoint slashDirnameFrom (path : string) : option string :=
  match path with
  | EmptyString => None
  | String c rest =>
      match slashDirnameFrom rest with
      | Some d => Some (String c d)
      | None => if Ascii.eqb c "/"%char then Some EmptyString else None
      end
  end.

Definition slashDirname (path : string) : string :=
  match slashDirnameFrom path with
  | Some d => d
  | None => "."
  end.

(** A joining of paths for the samples. *)
Definition slashJoin (directory fileName : string) : string :=
  String.append directory (String.append "/" fileName).

(** A file system with the working directory and nothing in it. *)
Definition emptyFileSystem : FileSystem :=
  {| files := fun _ => None;
     directories := fun p => String.eqb p "." |}.

(** The same with the tracking file holding the given list. *)
Definition ledgerFileSystem (urls : list string) : FileSystem :=
  withFile emptyFileSystem "sync.json" (urlsJson urls).

(** The same with a directory [xml] and a file in it. *)
Definition cacheFileSystem : FileSystem :=
  withFile (withDirectory emptyFileSystem "xml") "xml/ipg1.xml" "old".

(** ** Further notions: the claim loop *)

(** A claim-number marker line whose white space is two spaces, and one
    whose white space is anything else ([\s{2}] accepts both). *)
Definition spacedMarker (claimLine : string) : bool :=
  Pftaps.testNumber claimLine && startsWith claimLine "NUM  ".

Definition oddMarker (claimLine : string) : bool :=
  Pftaps.testNumber claimLine && negb (startsWith claimLine "NUM  ").

(** A line the loop accumulates: neither a marker nor a statement line. *)
Definition textLine (claimLine : string) : bool :=
  negb (Pftaps.testNumber claimLine) && negb (Pftaps.testStatement claimLine).

(** What the loop adds to [accumulatedClaimLine] for a text line, and for a
    run of text lines. *)
Definition claimText (claimLine : string) : string :=
  String.append (trim (Pftaps.replaceParagraphPrefix claimLine)) " ".

Fixpoint joinText (claimLines : list string) : string :=
  match claimLines with
  | [] => EmptyString
  | l :: rest => String.append (claimText l) (joinText rest)
  end.

(** [s] has no white space at either end. *)
Definition trimmed (s : string) : Prop := trim s = s.

(** [s] does not start with white space. *)
Definition noLeadingSpace (s : string) : Prop :=
  match s with
  | EmptyString => True
  | String c _ => isSpace c = false
  end.

(** [sep] occurs somewhere in [s]. *)
Definition occursIn (sep s : string) : Prop :=
  exists x y, s = String.append x (String.append sep y).

(** The same text, letter case apart. *)
Definition sameTextCI (a b : string) : Prop :=
  String.length a = String.length b /\ startsWithCI a b = true.

(** ** Further notions: record substrings *)

(** A span of the XML delimiter rule: the opening text, one white-space
    character, a body, and the closing text, which starts nowhere in the
    body. *)
Definition spanShape (opening closing span : string) : Prop :=
  exists o w body c,
    span = String.append o (String w (String.append body c))
    /\ sameTextCI o opening
    /\ isSpace w = true
    /\ sameTextCI c closing
    /\ forall b1 b2, body = String.append b1 b2 -> b2 <> EmptyString ->
         startsWithCI (String.append b2 c) closing = false.

(** * Properties *)

(** ** The string operations on small inputs *)

Example split_lines :
  split ("a" ++ CRLF ++ "b" ++ CRLF)%string CRLF = ["a"; "b"; EmptyString].
Proof. reflexivity. Qed.

Example split_empty : split EmptyString CRLF = [EmptyString].
Proof. reflexivity. Qed.

Example trim_both : trim (String TAB " a b  ") = "a b".
Proof. reflexivity. Qed.

Example match_two :
  matchSpans "x<A b>1</a><a c>2</A>y<a d>" "<a" "</a>"
  = Some ["<A b>1</a>"; "<a c>2</A>"].
Proof. reflexivity. Qed.

Example stringify_claims :
  stringify (JArr [JStr "a b"; JUndefined; JObj [("_", JStr "x"); ("k", JUndefined)]])
  = Some (String.concat (String DQUOTE EmptyString)
            ["["; "a b"; ",null,{"; "_"; ":"; "x"; "}]"]).
Proof. reflexivity. Qed.

(** ** Facts on strings *)

Section StringFacts.

Local Notation "a +++ b" := (String.append a b)
  (at level 60, right associativity).

Lemma append_assoc (a b c : string) : (a +++ b) +++ c = a +++ b +++ c.
Proof. induction a as [|x a IH]; simpl; [reflexivity | now rewrite IH]. Qed.

Lemma append_empty_r (a : string) : a +++ EmptyString = a.
Proof. induction a as [|x a IH]; simpl; [reflexivity | now rewrite IH]. Qed.

Lemma length_append (a b : string) :
  String.length (a +++ b) = String.length a + String.length b.
Proof. induction a as [|x a IH]; simpl; [reflexivity | now rewrite IH]. Qed.

Lemma startsWith_append (p r : string) : startsWith (p +++ r) p = true.
Proof.
  induction p as [|x p IH]; simpl; [reflexivity|].
  now rewrite Ascii.eqb_refl, IH.
Qed.

Lemma startsWith_inv (s p : string) :
  startsWith s p = true -> s = p +++ drop (String.length p) s.
Proof.
  revert s; induction p as [|x p IH]; intros s H; simpl in *; [reflexivity|].
  destruct s as [|y s]; [discriminate|].
  apply andb_true_iff in H as [Hxy Hp].
  apply Ascii.eqb_eq in Hxy; subst y.
  simpl. f_equal. now apply IH.
Qed.

Lemma drop_append (p r : string) : drop (String.length p) (p +++ r) = r.
Proof. induction p as [|x p IH]; simpl; [now destruct r | exact IH]. Qed.

Lemma take_drop (n : nat) (s : string) : take n s +++ drop n s = s.
Proof.
  revert s; induction n as [|n IH]; intros [|c s]; simpl; try reflexivity.
  now rewrite IH.
Qed.

(** [cut] splits the text around an occurrence of the separator... *)
Lemma cut_some (sep s b a : string) :
  cut sep s = Some (b, a) -> s = b +++ sep +++ a.
Proof.
  revert b a; induction s as [|c s IH]; intros b a H.
  - simpl in H. destruct (startsWith EmptyString sep) eqn:E; [|discriminate].
    inversion H; subst. simpl. now apply startsWith_inv.
  - simpl in H. destruct (startsWith (String c s) sep) eqn:E.
    + inversion H; subst. simpl. now apply startsWith_inv.
    + destruct (cut sep s) as [[b' a']|] eqn:C; [|discriminate].
      inversion H; subst. simpl. f_equal. now apply IH.
Qed.

(** ... the leftmost one: the separator starts nowhere inside [b]. *)
Lemma cut_some_leftmost (sep s b a : string) :
  cut sep s = Some (b, a) ->
  forall b1 b2, b = b1 +++ b2 -> b2 <> EmptyString ->
  startsWith (b2 +++ sep +++ a) sep = false.
Proof.
  revert b a; induction s as [|c s IH]; intros b a H b1 b2 Hb Hne.
  - simpl in H. destruct (startsWith EmptyString sep); [|discriminate].
    inversion H; subst. destruct b1; destruct b2; simpl in *; congruence.
  - simpl in H. destruct (startsWith (String c s) sep) eqn:E.
    + inversion H; subst. destruct b1; destruct b2; simpl in *; congruence.
    + destruct (cut sep s) as [[b' a']|] eqn:C; [|discriminate].
      inversion H; subst.
      destruct b1 as [|x b1]; simpl in H1.
      * subst b2. simpl. rewrite <- (cut_some _ _ _ _ C). exact E.
      * inversion H1; subst. now apply (IH _ _ eq_refl b1 b2).
Qed.

Lemma cut_none (sep s : string) :
  cut sep s = None ->
  forall s1 s2, s = s1 +++ s2 -> startsWith s2 sep = false.
Proof.
  induction s as [|c s IH]; intros H s1 s2 Hs.
  - simpl in H. destruct (startsWith EmptyString sep) eqn:E; [discriminate|].
    destruct s1; destruct s2; simpl in *; congruence.
  - simpl in H. destruct (startsWith (String c s) sep) eqn:E; [discriminate|].
    destruct (cut sep s) as [[b' a']|] eqn:C; [discriminate|].
    destruct s1 as [|x s1]; simpl in Hs.
    + now subst s2.
    + inversion Hs; subst. now apply (IH eq_refl s1 s2).
Qed.

Lemma cut_length (sep s b a : string) :
  cut sep s = Some (b, a) ->
  String.length s = String.length b + String.length sep + String.length a.
Proof.
  intros H. rewrite (cut_some _ _ _ _ H) at 1.
  rewrite !length_append. lia.
Qed.

Lemma cut_prefix (sep r : string) :
  cut sep (sep +++ r) = Some (EmptyString, r).
Proof.
  destruct (sep +++ r) as [|c s] eqn:E; simpl;
    rewrite <- E, startsWith_append, drop_append; reflexivity.
Qed.

(** More fuel than the text has characters changes nothing. *)
Lemma splitFuel_enough (sep : string) :
  sep <> EmptyString ->
  forall n m s, String.length s <= n -> String.length s <= m ->
  splitFuel n sep s = splitFuel m sep s.
Proof.
  intros Hsep. induction n as [|n IH]; intros m s Hn Hm.
  - destruct s; [|simpl in Hn; lia].
    destruct m; simpl; [reflexivity|].
    destruct sep; [congruence | reflexivity].
  - destruct m as [|m].
    + destruct s; [|simpl in Hm; lia].
      simpl. destruct sep; [congruence | reflexivity].
    + simpl. destruct (cut sep s) as [[b a]|] eqn:C; [|reflexivity].
      f_equal. pose proof (cut_length _ _ _ _ C) as L.
      assert (0 < String.length sep) by (destruct sep; [congruence | simpl; lia]).
      apply IH; lia.
Qed.

(** The equation of [split]. *)
Lemma split_unfold (s sep : string) :
  sep <> EmptyString ->
  split s sep = match cut sep s with
                | None => [s]
                | Some (b, a) => b :: split a sep
                end.
Proof.
  intros Hsep. unfold split.
  destruct (String.length s) as [|n] eqn:L.
  - destruct s; [|discriminate]. simpl.
    destruct sep; [congruence | reflexivity].
  - simpl. destruct (cut sep s) as [[b a]|] eqn:C; [|reflexivity].
    f_equal. pose proof (cut_length _ _ _ _ C) as L'.
    assert (0 < String.length sep) by (destruct sep; [congruence | simpl; lia]).
    apply splitFuel_enough; [assumption | lia | lia].
Qed.

(** Induction on a text along [split]. *)
Lemma split_ind (sep : string) (P : string -> Prop) :
  sep <> EmptyString ->
  (forall s, cut sep s = None -> P s) ->
  (forall s b a, cut sep s = Some (b, a) -> P a -> P s) ->
  forall s, P s.
Proof.
  intros Hsep Hnone Hsome s.
  remember (String.length s) as n eqn:L.
  revert s L. induction n as [n IH] using lt_wf_ind. intros s L.
  destruct (cut sep s) as [[b a]|] eqn:C.
  - apply (Hsome s b a C). apply (IH (String.length a)); [|reflexivity].
    pose proof (cut_length _ _ _ _ C).
    assert (0 < String.length sep) by (destruct sep; [congruence | simpl; lia]).
    lia.
  - now apply Hnone.
Qed.

(** No piece of a split contains the separator. *)
Lemma split_pieces_free (s sep : string) :
  sep <> EmptyString ->
  forall piece, In piece (split s sep) ->
  forall x y, piece <> x +++ sep +++ y.
Proof.
  intros Hsep. induction s as [s C|s b a C IH] using (fun P => split_ind sep P Hsep);
    intros piece Hin x y Heq; rewrite (split_unfold _ _ Hsep), C in Hin.
  - destruct Hin as [<-|[]].
    pose proof (cut_none _ _ C x (sep +++ y) Heq) as F.
    now rewrite startsWith_append in F.
  - destruct Hin as [<-|Hin]; [|now apply (IH piece Hin x y)].
    assert (Hne : sep +++ y <> EmptyString) by (destruct sep; simpl; congruence).
    pose proof (cut_some_leftmost _ _ _ _ C x (sep +++ y) Heq Hne) as F.
    now rewrite append_assoc, startsWith_append in F.
Qed.

(** A text that starts with the separator: the first piece is empty. *)
Lemma split_prefix (sep r : string) :
  sep <> EmptyString ->
  split (sep +++ r) sep = EmptyString :: split r sep.
Proof.
  intros Hsep. now rewrite (split_unfold _ _ Hsep), cut_prefix.
Qed.

End StringFacts.

(** ** Pieces and matches occur in the text in order *)

Lemma occurInOrder_prepend (p s : string) (xs : list string) :
  occurInOrder xs s -> occurInOrder xs (String.append p s).
Proof.
  intros H. destruct H as [s|x xs pre post H].
  - constructor.
  - rewrite <- append_assoc. now constructor.
Qed.

Lemma occurInOrder_tl (s : string) (xs : list string) :
  occurInOrder xs s -> occurInOrder (tl xs) s.
Proof.
  intros H. destruct H as [s|x xs pre post H]; simpl.
  - constructor.
  - rewrite <- append_assoc. now apply occurInOrder_prepend.
Qed.

Lemma split_occurInOrder (s sep : string) :
  sep <> EmptyString -> occurInOrder (split s sep) s.
Proof.
  intros Hsep.
  induction s as [s C|s b a C IH] using (fun P => split_ind sep P Hsep);
    rewrite (split_unfold _ _ Hsep), C.
  - rewrite <- (append_empty_r s) at 2.
    apply (occur_cons s [] EmptyString EmptyString). constructor.
  - rewrite (cut_some _ _ _ _ C).
    apply (occur_cons b _ EmptyString). now apply occurInOrder_prepend.
Qed.

Lemma matchAllFuel_occurInOrder (opening closing : string) (fuel : nat) (s : string) :
  occurInOrder (matchAllFuel fuel opening closing s) s.
Proof.
  revert s. induction fuel as [|fuel IH]; intros s; simpl; [constructor|].
  destruct s as [|c s]; [constructor|].
  destruct (matchSpanAt opening closing (String c s)) as [n|].
  - rewrite <- (take_drop n (String c s)) at 3.
    apply (occur_cons _ _ EmptyString). apply IH.
  - apply (occurInOrder_prepend (String c EmptyString) s). apply IH.
Qed.

Lemma matchSpans_occurInOrder (s opening closing : string) (l : list string) :
  matchSpans s opening closing = Some l -> occurInOrder l s.
Proof.
  unfold matchSpans. intros H.
  pose proof (matchAllFuel_occurInOrder opening closing (String.length s) s) as O.
  destruct (matchAllFuel (String.length s) opening closing s); [discriminate|].
  now inversion H; subst.
Qed.

Lemma matchSpans_not_empty (s opening closing : string) :
  matchSpans s opening closing <> Some [].
Proof.
  unfold matchSpans.
  destruct (matchAllFuel (String.length s) opening closing s); discriminate.
Qed.

(** ** Loops that push one element per iteration *)

Section PushLoops.

Context {A B : Type}.
Variable g : A -> outcome B.
Variable body : list B -> A -> outcome (list B).
Hypothesis body_pushes :
  forall acc x, body acc x = (y <- g x ;; Returned (acc ++ [y])).

Lemma forOf_push_returned (xs : list A) :
  forall acc out,
  forOf xs body acc = Returned out ->
  exists ys, Forall2 (fun x y => g x = Returned y) xs ys /\ out = acc ++ ys.
Proof.
  induction xs as [|x xs IH]; intros acc out H; simpl in H.
  - inversion H; subst. exists []. split; [constructor | now rewrite app_nil_r].
  - rewrite body_pushes in H. destruct (g x) as [y|e] eqn:G; simpl in H; [|discriminate].
    destruct (IH _ _ H) as (ys & F & ->).
    exists (y :: ys). split; [now constructor | now rewrite <- app_assoc].
Qed.

Lemma forOf_push_all (xs : list A) (ys : list B) :
  Forall2 (fun x y => g x = Returned y) xs ys ->
  forall acc, forOf xs body acc = Returned (acc ++ ys).
Proof.
  induction 1 as [|x y xs ys G F IH]; intros acc; simpl.
  - now rewrite app_nil_r.
  - rewrite body_pushes, G. simpl. rewrite IH. now rewrite <- app_assoc.
Qed.

End PushLoops.

Lemma forOf_push_map {A B : Type} (h : A -> B)
    (body : list B -> A -> outcome (list B)) :
  (forall acc x, body acc x = Returned (acc ++ [h x])) ->
  forall xs acc, forOf xs body acc = Returned (acc ++ map h xs).
Proof.
  intros Hb xs. induction xs as [|x xs IH]; intros acc; simpl.
  - now rewrite app_nil_r.
  - rewrite Hb. simpl. rewrite IH. now rewrite <- app_assoc.
Qed.

(** ** The record object *)

Lemma getField_fromFields (g : Field -> JsValue) (f : Field) :
  getField f (fromFields g) = g f.
Proof. now destruct f. Qed.

Lemma getField_processTries (tries : Field -> outcome JsValue) (f : Field) :
  getField f (processTries tries) = tryOrNull (tries f).
Proof. unfold processTries. now rewrite getField_fromFields. Qed.

Lemma getField_toSchemaData (d : UsptoPatentData) (f : Field) :
  f <> PatentClaims -> getField f (toSchemaData d) = getField f d.
Proof.
  intros H. unfold toSchemaData. rewrite getField_fromFields.
  destruct f; congruence.
Qed.

(** [map] on an array gives an array, or throws. *)
Lemma arrayMap_cases (v : JsValue) (f : JsValue -> outcome JsValue) :
  (exists e, arrayMap v f = Thrown e) \/ (exists l, arrayMap v f = Returned (JArr l)).
Proof.
  destruct v as [| |s|items|props]; simpl; try (left; eexists; reflexivity).
  destruct (forOf items _ []) as [out|e]; simpl.
  - right. now exists out.
  - left. now exists e.
Qed.

(** The claims of a candidate record are [null] or an array... *)
Lemma bind_arrayMap_nullOrArray (e : outcome JsValue) (f : JsValue -> outcome JsValue) :
  nullOrArray (tryOrNull (claims <- e ;; arrayMap claims f)).
Proof.
  destruct e as [v|err]; simpl; [|now left].
  destruct (arrayMap_cases v f) as [[err ->]|[l ->]]; simpl; [now left|].
  right. now exists l.
Qed.

Lemma Version4_claims (t : JsValue) :
  nullOrArray (patentClaims (Version4.processedPatentData t)).
Proof. apply bind_arrayMap_nullOrArray. Qed.

Lemma Version2_claims (t : JsValue) (fn : option string) :
  nullOrArray (patentClaims (Version2.processedPatentData t fn)).
Proof. apply bind_arrayMap_nullOrArray. Qed.

Lemma Pftaps_claims (section : string) (fn : option string) :
  nullOrArray (patentClaims (Pftaps.processedPatentData section fn)).
Proof.
  unfold Pftaps.processedPatentData, processTries. simpl.
  destruct (Pftaps.claimLines section) as [ls|e]; simpl; [|now left].
  destruct (Pftaps.assembleClaims ls) as [cs|e]; simpl; [|now left].
  right. eexists; reflexivity.
Qed.

(** ... so their JSON text is a string, and the test that guards [push]
    never fails. *)
Lemma stringify_nullOrArray (v : JsValue) :
  nullOrArray v -> exists s, JSON_stringify v = JStr s.
Proof.
  intros [->|[l ->]]; unfold JSON_stringify; simpl; eexists; reflexivity.
Qed.

Lemma notEveryNull_toSchemaData (d : UsptoPatentData) :
  nullOrArray (patentClaims d) -> notEveryNull (toSchemaData d) = true.
Proof.
  intros H. destruct (stringify_nullOrArray _ H) as [s Hs].
  unfold notEveryNull, Object_values, toSchemaData. simpl. rewrite Hs. simpl.
  rewrite !andb_false_r. reflexivity.
Qed.

(** ** The loop bodies push every record *)

Lemma Version4_body_pushes (parse : string -> outcome JsValue)
    (acc : list UsptoPatentSchemaData) (section : string) :
  Version4.body parse acc section
  = (y <- version4Record parse section ;; Returned (acc ++ [y])).
Proof.
  unfold Version4.body, version4Record. now destruct (parse section).
Qed.

Lemma Version2_body_pushes (parse : string -> outcome JsValue) (fn : option string)
    (acc : list UsptoPatentSchemaData) (section : string) :
  Version2.body parse fn acc section
  = (y <- version2Record parse fn section ;; Returned (acc ++ [y])).
Proof.
  unfold Version2.body, version2Record.
  destruct (parse section) as [t|e]; simpl; [|reflexivity].
  now rewrite (notEveryNull_toSchemaData _ (Version2_claims t fn)).
Qed.

Lemma Pftaps_body_pushes (fn : option string)
    (acc : list UsptoPatentSchemaData) (section : string) :
  Pftaps.body fn acc section = Returned (acc ++ [pftapsRecord fn section]).
Proof.
  unfold Pftaps.body, pftapsRecord.
  now rewrite (notEveryNull_toSchemaData _ (Pftaps_claims section fn)).
Qed.

Lemma convertUsptoPftapsDataToJs_map (data : string) (fn : option string) :
  convertUsptoPftapsDataToJs data fn
  = Returned (map (pftapsRecord fn) (Pftaps.sections data)).
Proof.
  unfold convertUsptoPftapsDataToJs.
  now rewrite (forOf_push_map (pftapsRecord fn) _ (Pftaps_body_pushes fn)).
Qed.

(** When no span matches, the XML converters throw. *)
Lemma no_span_Version4 (parse : string -> outcome JsValue) (xmlData : string) :
  matchSpans xmlData Version4.openingTag Version4.closingTag = None ->
  convertUsptoVersion4XmlDataToJs parse xmlData = Thrown TypeError.
Proof. unfold convertUsptoVersion4XmlDataToJs. now intros ->. Qed.

Lemma no_span_Version2 (parse : string -> outcome JsValue) (xmlData : string)
    (fn : option string) :
  matchSpans xmlData Version2.openingTag Version2.closingTag = None ->
  convertUsptoVersion2XmlDataToJs parse xmlData fn = Thrown TypeError.
Proof. unfold convertUsptoVersion2XmlDataToJs. now intros ->. Qed.

(** ** The claims *)

(** C1. On the empty blob the legacy converter returns the empty sequence,
    as the claim says, but the two XML converters do not: [match] finds no
    span and returns [null], and the loop over [null] throws a [TypeError],
    whatever the parser is.  The same happens on a blob that is not empty and
    in which no span matches. *)
Theorem empty_blob_outcomes :
  (forall fn, convertUsptoPftapsDataToJs EmptyString fn = Returned [])
  /\ (forall parse,
        convertUsptoVersion4XmlDataToJs parse EmptyString = Thrown TypeError)
  /\ (forall parse fn,
        convertUsptoVersion2XmlDataToJs parse EmptyString fn = Thrown TypeError)
  /\ (forall parse,
        convertUsptoVersion4XmlDataToJs parse unterminatedGrantBlob
        = Thrown TypeError).
Proof.
  repeat apply conj.
  - intros fn. reflexivity.
  - intros parse. now apply no_span_Version4.
  - intros parse fn. now apply no_span_Version2.
  - intros parse. now apply no_span_Version4.
Qed.

(** *** The claim loop keeps the text after the last marker *)

Lemma forOf_app {A S : Type} (body : S -> A -> outcome S) (xs ys : list A) (acc : S) :
  forOf (xs ++ ys) body acc = (acc' <- forOf xs body acc ;; forOf ys body acc').
Proof.
  revert acc; induction xs as [|x xs IH]; intros acc; simpl; [reflexivity|].
  destruct (body acc x) as [acc'|e]; simpl; [apply IH | reflexivity].
Qed.

(** A text line at the end of a claim section of several lines adds nothing
    to the claims: it only grows [accumulatedClaimLine], which nothing reads
    after the loop. *)
Lemma last_text_line_lost (claimLines : list string) (claimLine : string)
    (st : Pftaps.ClaimState) :
  claimLines <> [] ->
  Pftaps.testNumber claimLine = false ->
  forOf claimLines (Pftaps.claimStep (List.length (claimLines ++ [claimLine])))
    Pftaps.initialClaimState = Returned st ->
  Pftaps.assembleClaims (claimLines ++ [claimLine])
  = Returned (map trim (Pftaps.claimData st)).
Proof.
  intros Hne Hnum Hloop. unfold Pftaps.assembleClaims.
  rewrite forOf_app, Hloop. simpl. unfold Pftaps.claimStep. rewrite Hnum.
  destruct (Pftaps.testStatement claimLine); [reflexivity|].
  rewrite length_app. simpl.
  destruct claimLines as [|l ls]; [congruence|]. simpl.
  replace (List.length ls + 1 =? 0)%nat with false; [reflexivity|].
  symmetry. apply Nat.eqb_neq. lia.
Qed.

(** C3. The claim loop has no flush at the end of the lines: of a claim
    section with two claim-number markers, each followed by text lines,
    only the first claim comes out; the text accumulated after the second
    marker is still in [accumulatedClaimLine] when the loop ends, and is
    lost. *)
Theorem two_markers_one_claim :
  Pftaps.assembleClaims twoClaimLines
  = Returned ["First claim. Its first part."]
  /\ forOf twoClaimLines (Pftaps.claimStep (List.length twoClaimLines))
       Pftaps.initialClaimState
     = Returned {| Pftaps.claimData := ["First claim. Its first part. "];
                   Pftaps.claimNumber := "2.";
                   Pftaps.accumulatedClaimLine := "Second claim. " |}
  /\ Pftaps.tries twoClaimsSection None PatentClaims
     = Returned (JArr [JStr "First claim. Its first part."]).
Proof. repeat split; vm_compute; reflexivity. Qed.

(** C4. On the blob of the concrete scenario the legacy converter returns
    one record with the application number, the date and the title of the
    scenario, but with an empty claims array (its JSON text is []): the
    only claim is never pushed. *)
Theorem widget_record :
  convertUsptoPftapsDataToJs widgetBlob None
  = Returned
      [{| applicationNumber := JStr "12345";
          type := JStr "utility";
          language := JNull;
          country := JNull;
          dateProduced := JStr "19900101";
          datePublished := JNull;
          dtdVersion := JNull;
          fileName := JNull;
          patentStatus := JNull;
          patentClaims := JStr "[]";
          inventionTitle := JStr "A Widget";
          inventionId := JNull |}].
Proof. vm_compute; reflexivity. Qed.

(** *** The lines of a legacy record *)

Lemma CRLF_not_empty : CRLF <> EmptyString.
Proof. discriminate. Qed.

(** No line is the text [DCLM\r\n] the design-marker expression asks for:
    the line terminator was consumed by the split. *)
Lemma testDesignMarker_lines (section line : string) :
  In line (Pftaps.lines section) -> Pftaps.testDesignMarker line = false.
Proof.
  intros Hin. unfold Pftaps.testDesignMarker.
  apply String.eqb_neq. intros ->.
  apply (split_pieces_free _ _ CRLF_not_empty _ Hin "DCLM" EmptyString).
  reflexivity.
Qed.

Lemma no_design_line (section : string) :
  existsb Pftaps.testDesignMarker (Pftaps.lines section) = false.
Proof.
  destruct (existsb _ _) eqn:E; [|reflexivity].
  apply existsb_exists in E as (line & Hin & Ht).
  now rewrite (testDesignMarker_lines _ _ Hin) in Ht.
Qed.

(** C5. The record type of the legacy dialect is "utility" for every
    record substring, also for one that has a DCLM design-claim marker
    line: the expression tested on each line asks for the line terminator
    that [split] has removed, so that no line matches and "design" is never
    produced. *)
Theorem recordType_always_utility :
  (forall section fn,
     type (Pftaps.processedPatentData section fn) = JStr "utility")
  /\ In "DCLM" (Pftaps.lines designSection)
  /\ getField RecordType (pftapsRecord None designSection) = JStr "utility".
Proof.
  split; [|split].
  - intros section fn. unfold Pftaps.processedPatentData, processTries. simpl.
    now rewrite no_design_line.
  - vm_compute. tauto.
  - vm_compute. reflexivity.
Qed.

(** C2. A candidate record with all twelve fields absent is emitted all the
    same.  [JSON.stringify(null)] is the text "null", not [null], so the
    test [every(value => value === null)] that guards [push] in the
    older-XML and legacy converters never holds; the current-XML converter
    has no such test.  Here on the document of an empty root element. *)
Theorem all_absent_record_emitted :
  everyFieldAbsent (Version2.processedPatentData (emptyElement "PATDOC") None) = true
  /\ convertUsptoVersion2XmlDataToJs sampleParser emptyPatdocText None
     = Returned [nullRecord]
  /\ everyFieldAbsent (Version4.processedPatentData (emptyElement "us-patent-grant")) = true
  /\ convertUsptoVersion4XmlDataToJs sampleParser emptyGrantText
     = Returned [nullRecord]
  /\ (forall t fn,
        notEveryNull (toSchemaData (Version2.processedPatentData t fn)) = true)
  /\ (forall section fn,
        notEveryNull (toSchemaData (Pftaps.processedPatentData section fn)) = true).
Proof.
  repeat split; try (vm_compute; reflexivity).
  - intros t fn. apply notEveryNull_toSchemaData, Version2_claims.
  - intros section fn. apply notEveryNull_toSchemaData, Pftaps_claims.
Qed.

(** *** Fields read from a prefixed line *)

Lemma hd_error_filter {A : Type} (p : A -> bool) (l : list A) :
  hd_error (filter p l) = find p l.
Proof.
  induction l as [|x l IH]; simpl; [reflexivity|].
  now destruct (p x).
Qed.

Lemma split_second_piece (line prefix : string) :
  prefix <> EmptyString ->
  startsWith line prefix = true ->
  nth_error (split line prefix) 1
  = Some (textBefore prefix (drop (String.length prefix) line)).
Proof.
  intros Hne Hs. rewrite (startsWith_inv _ _ Hs) at 1.
  rewrite (split_prefix _ _ Hne). simpl.
  rewrite (split_unfold _ _ Hne). unfold textBefore.
  now destruct (cut prefix _) as [[b a]|].
Qed.

(** The field is read from the first line that has the prefix, and is the
    text after the prefix, up to the next occurrence of the prefix. *)
Lemma prefixed_spec (section prefix : string) :
  prefix <> EmptyString ->
  Pftaps.prefixed section prefix
  = match find (fun line => startsWith line prefix) (Pftaps.lines section) with
    | None => Thrown TypeError
    | Some line =>
        Returned (JStr (textBefore prefix (drop (String.length prefix) line)))
    end.
Proof.
  intros Hne. unfold Pftaps.prefixed.
  rewrite <- hd_error_filter.
  destruct (filter _ (Pftaps.lines section)) as [|line rest] eqn:F;
    cbn [hd_error]; [reflexivity|].
  assert (Hin : In line (filter (fun l => startsWith l prefix) (Pftaps.lines section)))
    by (rewrite F; now left).
  apply filter_In in Hin as [_ Hs].
  now rewrite (split_second_piece _ _ Hne Hs).
Qed.

Lemma linePrefix_not_empty (f : Field) (prefix : string) :
  linePrefix f = Some prefix -> prefix <> EmptyString.
Proof. destruct f; simpl; intros H; inversion H; discriminate. Qed.

Lemma linePrefix_tries (section : string) (fn : option string) (f : Field)
    (prefix : string) :
  linePrefix f = Some prefix ->
  Pftaps.tries section fn f = Pftaps.prefixed section prefix.
Proof. destruct f; simpl; intros H; inversion H; reflexivity. Qed.

Lemma linePrefix_field (section : string) (fn : option string) (f : Field)
    (prefix : string) :
  linePrefix f = Some prefix ->
  getField f (pftapsRecord fn section)
  = match find (fun line => startsWith line prefix) (Pftaps.lines section) with
    | None => JNull
    | Some line => JStr (textBefore prefix (drop (String.length prefix) line))
    end.
Proof.
  intros H. unfold pftapsRecord.
  rewrite getField_toSchemaData by (destruct f; simpl in H; congruence).
  unfold Pftaps.processedPatentData. rewrite getField_processTries.
  rewrite (linePrefix_tries _ _ _ _ H).
  rewrite (prefixed_spec _ _ (linePrefix_not_empty _ _ H)).
  now destruct (find _ _).
Qed.

(** C10. In the legacy dialect [inventionId] is read from the first line
    with the prefix 'ISD  ', the line [datePublished] is read from: the
    two fields are always equal, both absent when no line has the prefix
    and both the text after the prefix otherwise. *)
Theorem inventionId_is_datePublished (section : string) (fn : option string) :
  let r := pftapsRecord fn section in
  inventionId r = datePublished r
  /\ inventionId r
     = match find (fun line => startsWith line "ISD  ") (Pftaps.lines section) with
       | None => JNull
       | Some line => JStr (textBefore "ISD  " (drop 5 line))
       end.
Proof.
  split; [reflexivity|].
  exact (linePrefix_field section fn InventionId "ISD  " eq_refl).
Qed.

(** C9. In the older-XML dialect [inventionId] is read by the lookup path of
    [inventionTitle]: for every document the two fields are equal, in the
    candidate record and in the emitted one, and so present or absent
    together. *)
Theorem inventionId_is_inventionTitle (t : JsValue) (fn : option string) :
  Version2.tries t fn InventionId = Version2.tries t fn InventionTitle
  /\ inventionId (Version2.processedPatentData t fn)
     = inventionTitle (Version2.processedPatentData t fn)
  /\ inventionId (toSchemaData (Version2.processedPatentData t fn))
     = inventionTitle (toSchemaData (Version2.processedPatentData t fn))
  /\ (absent (inventionId (Version2.processedPatentData t fn))
      <-> absent (inventionTitle (Version2.processedPatentData t fn))).
Proof. repeat split; auto. Qed.

(** *** What the XML converters return *)

Lemma Version4_returned (parse : string -> outcome JsValue) (data : string)
    (out : list UsptoPatentSchemaData) :
  convertUsptoVersion4XmlDataToJs parse data = Returned out ->
  exists sections,
    matchSpans data Version4.openingTag Version4.closingTag = Some sections
    /\ Forall2 (fun s r => version4Record parse s = Returned r) sections out.
Proof.
  unfold convertUsptoVersion4XmlDataToJs, forOfSections.
  destruct (matchSpans data _ _) as [sections|]; [|discriminate].
  intros H. exists sections. split; [reflexivity|].
  destruct (forOf_push_returned _ _ (Version4_body_pushes parse) _ _ _ H)
    as (ys & F & ->).
  exact F.
Qed.

Lemma Version2_returned (parse : string -> outcome JsValue) (data : string)
    (fn : option string) (out : list UsptoPatentSchemaData) :
  convertUsptoVersion2XmlDataToJs parse data fn = Returned out ->
  exists sections,
    matchSpans data Version2.openingTag Version2.closingTag = Some sections
    /\ Forall2 (fun s r => version2Record parse fn s = Returned r) sections out.
Proof.
  unfold convertUsptoVersion2XmlDataToJs, forOfSections.
  destruct (matchSpans data _ _) as [sections|]; [|discriminate].
  intros H. exists sections. split; [reflexivity|].
  destruct (forOf_push_returned _ _ (Version2_body_pushes parse fn) _ _ _ H)
    as (ys & F & ->).
  exact F.
Qed.

Lemma all_parsed_Forall2 {R : Type} (parse : string -> outcome JsValue)
    (h : JsValue -> R) (sections : list string) :
  (forall s, In s sections -> exists t, parse s = Returned t) ->
  exists out,
    Forall2 (fun s r => (t <- parse s ;; Returned (h t)) = Returned r) sections out.
Proof.
  induction sections as [|s sections IH]; intros H.
  - exists []. constructor.
  - destruct (H s (or_introl eq_refl)) as [t Ht].
    destruct IH as [out F]; [intros s' Hs'; apply H; now right|].
    exists (h t :: out). constructor; [now rewrite Ht | exact F].
Qed.

Lemma Version4_continues (parse : string -> outcome JsValue) (data : string)
    (sections : list string) :
  matchSpans data Version4.openingTag Version4.closingTag = Some sections ->
  (forall s, In s sections -> exists t, parse s = Returned t) ->
  exists out,
    convertUsptoVersion4XmlDataToJs parse data = Returned out
    /\ List.length out = List.length sections.
Proof.
  intros M H.
  destruct (all_parsed_Forall2 parse
              (fun t => toSchemaData (Version4.processedPatentData t)) sections H)
    as [out F].
  exists out. split; [|symmetry; exact (Forall2_length F)].
  unfold convertUsptoVersion4XmlDataToJs, forOfSections. rewrite M.
  exact (forOf_push_all _ _ (Version4_body_pushes parse) _ _ F []).
Qed.

Lemma Version2_continues (parse : string -> outcome JsValue) (data : string)
    (fn : option string) (sections : list string) :
  matchSpans data Version2.openingTag Version2.closingTag = Some sections ->
  (forall s, In s sections -> exists t, parse s = Returned t) ->
  exists out,
    convertUsptoVersion2XmlDataToJs parse data fn = Returned out
    /\ List.length out = List.length sections.
Proof.
  intros M H.
  destruct (all_parsed_Forall2 parse
              (fun t => toSchemaData (Version2.processedPatentData t fn)) sections H)
    as [out F].
  exists out. split; [|symmetry; exact (Forall2_length F)].
  unfold convertUsptoVersion2XmlDataToJs, forOfSections. rewrite M.
  exact (forOf_push_all _ _ (Version2_body_pushes parse fn) _ _ F []).
Qed.

(** A path that meets a missing element before its end throws. *)
Lemma getPath_app (v : JsValue) (p q : list step) :
  getPath v (p ++ q) = (w <- getPath v p ;; getPath w q).
Proof.
  revert v; induction p as [|st p IH]; intros v; simpl; [reflexivity|].
  destruct (getStep v st) as [w|e]; simpl; [apply IH | reflexivity].
Qed.

Lemma getPath_through_undefined (v : JsValue) (p : list step) (st : step)
    (q : list step) :
  getPath v p = Returned JUndefined ->
  getPath v (p ++ st :: q) = Thrown TypeError.
Proof.
  intros H. rewrite getPath_app, H. now destruct st.
Qed.

Lemma Forall2_parsed_records {R : Type} (parse : string -> outcome JsValue)
    (h : JsValue -> R) (sections : list string) (trees : list JsValue) :
  Forall2 (fun s t => parse s = Returned t) sections trees ->
  Forall2 (fun s r => (t <- parse s ;; Returned (h t)) = Returned r)
    sections (map h trees).
Proof.
  induction 1 as [|s t sections trees P F IH]; simpl; constructor;
    [now rewrite P | exact IH].
Qed.

Lemma Version4_all_parsed (parse : string -> outcome JsValue) (data : string)
    (sections : list string) (trees : list JsValue) :
  matchSpans data Version4.openingTag Version4.closingTag = Some sections ->
  Forall2 (fun s t => parse s = Returned t) sections trees ->
  convertUsptoVersion4XmlDataToJs parse data
  = Returned (map (fun t => toSchemaData (Version4.processedPatentData t)) trees).
Proof.
  intros M F. unfold convertUsptoVersion4XmlDataToJs, forOfSections. rewrite M.
  exact (forOf_push_all _ _ (Version4_body_pushes parse) _ _
           (Forall2_parsed_records parse _ _ _ F) []).
Qed.

Lemma Version2_all_parsed (parse : string -> outcome JsValue) (data : string)
    (fn : option string) (sections : list string) (trees : list JsValue) :
  matchSpans data Version2.openingTag Version2.closingTag = Some sections ->
  Forall2 (fun s t => parse s = Returned t) sections trees ->
  convertUsptoVersion2XmlDataToJs parse data fn
  = Returned (map (fun t => toSchemaData (Version2.processedPatentData t fn)) trees).
Proof.
  intros M F. unfold convertUsptoVersion2XmlDataToJs, forOfSections. rewrite M.
  exact (forOf_push_all _ _ (Version2_body_pushes parse fn) _ _
           (Forall2_parsed_records parse _ _ _ F) []).
Qed.

(** What one failing lookup does to a record made of the lookups [tries]:
    the field [f] of the failing lookup is absent, and any field [g] whose
    own lookup returns [v] holds [v], in the candidate record and (the
    claims are replaced by their text) in the emitted one. *)
Lemma failure_is_local (tries : Field -> outcome JsValue) (f g : Field) (v : JsValue) :
  lookupFails (tries f) ->
  tries g = Returned v ->
  absent (getField f (processTries tries))
  /\ getField g (processTries tries) = v
  /\ (g <> PatentClaims -> getField g (toSchemaData (processTries tries)) = v).
Proof.
  intros Hf Hg. rewrite !getField_processTries.
  split; [|split].
  - destruct (tries f) as [w|e]; simpl in *; [right; exact Hf | now left].
  - now rewrite Hg.
  - intros Hc. rewrite getField_toSchemaData by exact Hc.
    rewrite getField_processTries. now rewrite Hg.
Qed.

(** C7. Every field is assigned in a [try] block of its own.  A lookup that
    returns a value puts that value in the record, and one that throws puts
    [null]; so a lookup that fails (it throws on a missing intermediate
    element, or ends on [undefined] for an absent attribute, an empty
    sequence or an index out of range) leaves its field absent, while every
    other field holds what its own lookup returns, in each of the three
    dialects.  No exception leaves the extraction of a record, and the pass
    goes on to the next record: the legacy converter returns the records of
    all its record substrings, and so do the XML converters for the record
    substrings the parser accepts. *)
Theorem field_failure_is_local :
  (forall tries f v,
     tries f = Returned v -> getField f (processTries tries) = v)
  /\ (forall tries f e,
        tries f = Thrown e -> getField f (processTries tries) = JNull)
  /\ (forall t f g v,
        lookupFails (Version4.tries t f) ->
        Version4.tries t g = Returned v ->
        absent (getField f (Version4.processedPatentData t))
        /\ getField g (Version4.processedPatentData t) = v
        /\ (g <> PatentClaims ->
            getField g (toSchemaData (Version4.processedPatentData t)) = v))
  /\ (forall t fn f g v,
        lookupFails (Version2.tries t fn f) ->
        Version2.tries t fn g = Returned v ->
        absent (getField f (Version2.processedPatentData t fn))
        /\ getField g (Version2.processedPatentData t fn) = v
        /\ (g <> PatentClaims ->
            getField g (toSchemaData (Version2.processedPatentData t fn)) = v))
  /\ (forall section fn f g v,
        lookupFails (Pftaps.tries section fn f) ->
        Pftaps.tries section fn g = Returned v ->
        absent (getField f (Pftaps.processedPatentData section fn))
        /\ getField g (Pftaps.processedPatentData section fn) = v
        /\ (g <> PatentClaims -> getField g (pftapsRecord fn section) = v))
  /\ (forall t f,
        getField f (Version4.processedPatentData t) = tryOrNull (Version4.tries t f))
  /\ (forall t fn f,
        getField f (Version2.processedPatentData t fn)
        = tryOrNull (Version2.tries t fn f))
  /\ (forall section fn f,
        getField f (Pftaps.processedPatentData section fn)
        = tryOrNull (Pftaps.tries section fn f))
  /\ (forall v p st q,
        getPath v p = Returned JUndefined ->
        getPath v (p ++ st :: q) = Thrown TypeError)
  /\ (forall tries f,
        lookupFails (tries f) -> absent (getField f (processTries tries)))
  /\ (forall tries tries' g,
        tries g = tries' g ->
        getField g (processTries tries) = getField g (processTries tries'))
  /\ (forall data fn,
        convertUsptoPftapsDataToJs data fn
        = Returned (map (pftapsRecord fn) (Pftaps.sections data)))
  /\ (forall parse data sections trees,
        matchSpans data Version4.openingTag Version4.closingTag = Some sections ->
        Forall2 (fun s t => parse s = Returned t) sections trees ->
        convertUsptoVersion4XmlDataToJs parse data
        = Returned (map (fun t => toSchemaData (Version4.processedPatentData t)) trees))
  /\ (forall parse data fn sections trees,
        matchSpans data Version2.openingTag Version2.closingTag = Some sections ->
        Forall2 (fun s t => parse s = Returned t) sections trees ->
        convertUsptoVersion2XmlDataToJs parse data fn
        = Returned
            (map (fun t => toSchemaData (Version2.processedPatentData t fn)) trees))
  /\ (forall data fn,
        exists out,
          convertUsptoPftapsDataToJs data fn = Returned out
          /\ List.length out = List.length (Pftaps.sections data))
  /\ (forall parse data sections,
        matchSpans data Version4.openingTag Version4.closingTag = Some sections ->
        (forall s, In s sections -> exists t, parse s = Returned t) ->
        exists out,
          convertUsptoVersion4XmlDataToJs parse data = Returned out
          /\ List.length out = List.length sections)
  /\ (forall parse data fn sections,
        matchSpans data Version2.openingTag Version2.closingTag = Some sections ->
        (forall s, In s sections -> exists t, parse s = Returned t) ->
        exists out,
          convertUsptoVersion2XmlDataToJs parse data fn = Returned out
          /\ List.length out = List.length sections).
Proof.
  repeat apply conj.
  - intros tries f v H. rewrite getField_processTries. now rewrite H.
  - intros tries f e H. rewrite getField_processTries. now rewrite H.
  - intros t f g v. apply failure_is_local.
  - intros t fn f g v. apply failure_is_local.
  - intros section fn f g v. apply failure_is_local.
  - intros t f. apply getField_processTries.
  - intros t fn f. apply getField_processTries.
  - intros section fn f. apply getField_processTries.
  - exact getPath_through_undefined.
  - intros tries f H. rewrite getField_processTries.
    destruct (tries f) as [v|e]; simpl in *; [right; exact H | now left].
  - intros tries tries' g H. rewrite !getField_processTries. now rewrite H.
  - exact convertUsptoPftapsDataToJs_map.
  - exact Version4_all_parsed.
  - exact Version2_all_parsed.
  - intros data fn. exists (map (pftapsRecord fn) (Pftaps.sections data)).
    split; [apply convertUsptoPftapsDataToJs_map | apply length_map].
  - exact Version4_continues.
  - exact Version2_continues.
Qed.

Lemma field_failure_is_local_witness :
  (absent (getField ApplicationNumber (Version2.processedPatentData titledPatdoc None))
   /\ getField InventionTitle (Version2.processedPatentData titledPatdoc None)
      = JStr "Chair"
   /\ (InventionTitle <> PatentClaims ->
       getField InventionTitle
         (toSchemaData (Version2.processedPatentData titledPatdoc None))
       = JStr "Chair"))
  /\ convertUsptoVersion2XmlDataToJs sampleParser twoPatdocsBlob None
     = Returned
         (map (fun t => toSchemaData (Version2.processedPatentData t None))
            [titledPatdoc; emptyElement "PATDOC"]).
Proof.
  split.
  - refine (proj1 (proj2 (proj2 (proj2 field_failure_is_local)))
              titledPatdoc None ApplicationNumber InventionTitle (JStr "Chair") _ _).
    + exact I.
    + reflexivity.
  - refine (proj1 (proj2 (proj2 (proj2 (proj2 (proj2 (proj2 (proj2 (proj2 (proj2 (proj2 (proj2 (proj2 (proj2 field_failure_is_local)))))))))))))
              sampleParser twoPatdocsBlob None
              [titledPatdocText; emptyPatdocText] [titledPatdoc; emptyElement "PATDOC"]
              _ _).
    + vm_compute. reflexivity.
    + repeat constructor.
Defined.

(** C8. The records come out in the order of the record substrings in the
    blob, one for each, none moved and none merged: the legacy converter
    returns the records of its sections, which occur in the blob one after
    the other; an XML converter that returns has made each record of its
    output from the record substring at the same position among the spans
    matched in the blob. *)
Theorem records_in_source_order :
  (forall data fn,
     convertUsptoPftapsDataToJs data fn
     = Returned (map (pftapsRecord fn) (Pftaps.sections data))
     /\ occurInOrder (Pftaps.sections data) data)
  /\ (forall parse data out,
        convertUsptoVersion4XmlDataToJs parse data = Returned out ->
        exists sections,
          matchSpans data Version4.openingTag Version4.closingTag = Some sections
          /\ occurInOrder sections data
          /\ Forall2 (fun s r => version4Record parse s = Returned r) sections out)
  /\ (forall parse data fn out,
        convertUsptoVersion2XmlDataToJs parse data fn = Returned out ->
        exists sections,
          matchSpans data Version2.openingTag Version2.closingTag = Some sections
          /\ occurInOrder sections data
          /\ Forall2 (fun s r => version2Record parse fn s = Returned r) sections out).
Proof.
  repeat apply conj.
  - intros data fn. split; [apply convertUsptoPftapsDataToJs_map|].
    apply occurInOrder_tl, split_occurInOrder. discriminate.
  - intros parse data out H.
    destruct (Version4_returned _ _ _ H) as (sections & M & F).
    exists sections. repeat split; auto. now apply matchSpans_occurInOrder in M.
  - intros parse data fn out H.
    destruct (Version2_returned _ _ _ _ H) as (sections & M & F).
    exists sections. repeat split; auto. now apply matchSpans_occurInOrder in M.
Qed.

Lemma records_in_source_order_witness :
  exists sections,
    matchSpans twoPatdocsBlob Version2.openingTag Version2.closingTag = Some sections
    /\ occurInOrder sections twoPatdocsBlob
    /\ Forall2 (fun s r => version2Record sampleParser None s = Returned r) sections
         [toSchemaData (Version2.processedPatentData titledPatdoc None); nullRecord].
Proof.
  refine (proj2 (proj2 records_in_source_order) sampleParser twoPatdocsBlob None _ _).
  vm_compute. reflexivity.
Defined.

(** C6, as the code has it.  A present field may be empty.  In the legacy
    dialect every field is [null] or a string; a field read from a prefixed
    line is [null] when no line starts with its prefix and is otherwise the
    text after the prefix on the first such line (up to a repetition of the
    prefix), so that a line made of the prefix alone gives the empty
    string.  In the XML dialects a field other than the claims is the value
    its lookup returns, unchanged. *)
Theorem present_field_may_be_empty :
  (forall section fn f,
     getField f (pftapsRecord fn section) = JNull
     \/ exists s, getField f (pftapsRecord fn section) = JStr s)
  /\ (forall section fn f prefix,
        linePrefix f = Some prefix ->
        getField f (pftapsRecord fn section)
        = match find (fun line => startsWith line prefix) (Pftaps.lines section) with
          | None => JNull
          | Some line => JStr (textBefore prefix (drop (String.length prefix) line))
          end)
  /\ (forall section fn f prefix,
        linePrefix f = Some prefix ->
        find (fun line => startsWith line prefix) (Pftaps.lines section) = Some prefix ->
        getField f (pftapsRecord fn section) = JStr EmptyString)
  /\ (forall t f v,
        f <> PatentClaims ->
        Version4.tries t f = Returned v ->
        getField f (toSchemaData (Version4.processedPatentData t)) = v)
  /\ (forall t fn f v,
        f <> PatentClaims ->
        Version2.tries t fn f = Returned v ->
        getField f (toSchemaData (Version2.processedPatentData t fn)) = v).
Proof.
  repeat apply conj.
  - intros section fn f.
    destruct (linePrefix f) as [prefix|] eqn:P.
    + rewrite (linePrefix_field _ _ _ _ P).
      destruct (find _ _); [right; eexists; reflexivity | now left].
    + destruct f; try discriminate P; unfold pftapsRecord;
        try (now left);
        try (rewrite getField_toSchemaData by discriminate;
             unfold Pftaps.processedPatentData; rewrite getField_processTries; simpl).
      * destruct (existsb _ _); right; eexists; reflexivity.
      * destruct fn; simpl; [right; eexists; reflexivity | now left].
      * right. unfold toSchemaData. rewrite getField_fromFields.
        apply stringify_nullOrArray, Pftaps_claims.
  - exact linePrefix_field.
  - intros section fn f prefix P F.
    rewrite (linePrefix_field _ _ _ _ P), F.
    rewrite <- (append_empty_r prefix) at 3. rewrite drop_append.
    unfold textBefore. rewrite <- (append_empty_r prefix) at 1.
    pose proof (linePrefix_not_empty _ _ P) as Hne.
    destruct (cut (String.append prefix EmptyString) EmptyString) as [[b a]|] eqn:C;
      [|reflexivity].
    apply cut_some in C. destruct b; [reflexivity | discriminate].
  - intros t f v Hf H. rewrite getField_toSchemaData by assumption.
    unfold Version4.processedPatentData. rewrite getField_processTries. now rewrite H.
  - intros t fn f v Hf H. rewrite getField_toSchemaData by assumption.
    unfold Version2.processedPatentData. rewrite getField_processTries. now rewrite H.
Qed.

Lemma present_field_may_be_empty_witness :
  getField ApplicationNumber
    (pftapsRecord None (String.append "PNO  " (String.append CRLF "TTL  Chair")))
  = JStr EmptyString.
Proof.
  refine (proj1 (proj2 (proj2 present_field_may_be_empty))
            (String.append "PNO  " (String.append CRLF "TTL  Chair"))
            None ApplicationNumber "PNO  " _ _).
  - reflexivity.
  - vm_compute. reflexivity.
Defined.

(** C6, as stated, fails: the legacy record whose application-number line is
    the prefix 'PNO  ' and nothing else is emitted with a present, empty
    application number. *)
Lemma empty_prefix_line_counterexample :
  exists r,
    convertUsptoPftapsDataToJs emptyNumberBlob None = Returned [r]
    /\ getField ApplicationNumber r = JStr EmptyString
    /\ ~ absent (getField ApplicationNumber r).
Proof.
  eexists. split; [vm_compute; reflexivity|].
  split; [reflexivity|]. intros [H|H]; discriminate H.
Qed.

(** * Further properties of the converters *)

(** ** [trim] *)

Section TrimFacts.

Local Notation "a +++ b" := (String.append a b)
  (at level 60, right associativity).

Lemma trimEnd_idempotent (s : string) : trimEnd (trimEnd s) = trimEnd s.
Proof.
  induction s as [|c s IH]; simpl; [reflexivity|].
  destruct (trimEnd s) as [|d t] eqn:E.
  - destruct (isSpace c) eqn:Hc; simpl; [reflexivity | now rewrite Hc].
  - simpl in *. now rewrite IH.
Qed.

Lemma trimEnd_append_space (s : string) : trimEnd (s +++ " ") = trimEnd s.
Proof.
  induction s as [|c s IH]; simpl; [reflexivity | now rewrite IH].
Qed.

Lemma trimStart_noLeadingSpace (s : string) : noLeadingSpace (trimStart s).
Proof.
  induction s as [|c s IH]; simpl; [exact I|].
  destruct (isSpace c) eqn:Hc; [exact IH | exact Hc].
Qed.

Lemma trimStart_fixed (s : string) : noLeadingSpace s -> trimStart s = s.
Proof. destruct s as [|c s]; simpl; [reflexivity | now intros ->]. Qed.

Lemma trimEnd_noLeadingSpace (s : string) :
  noLeadingSpace s -> noLeadingSpace (trimEnd s).
Proof.
  destruct s as [|c s]; simpl; [trivial|]. intros Hc.
  destruct (trimEnd s); [rewrite Hc|]; exact Hc.
Qed.

Lemma trim_noLeadingSpace (s : string) : noLeadingSpace (trim s).
Proof. apply trimEnd_noLeadingSpace, trimStart_noLeadingSpace. Qed.

Lemma trim_idempotent (s : string) : trim (trim s) = trim s.
Proof.
  unfold trim at 1. rewrite (trimStart_fixed _ (trim_noLeadingSpace s)).
  apply trimEnd_idempotent.
Qed.

Lemma trim_append_space (s : string) : trim (trim s +++ " ") = trim s.
Proof.
  unfold trim at 1.
  destruct (trim s) as [|c t] eqn:E; [reflexivity|].
  pose proof (trim_noLeadingSpace s) as H. rewrite E in H. simpl in H.
  change (String c t +++ " ") with (String c (t +++ " ")).
  cbn [trimStart]. rewrite H.
  change (String c (t +++ " ")) with (String c t +++ " ").
  rewrite trimEnd_append_space, <- E. unfold trim. apply trimEnd_idempotent.
Qed.

End TrimFacts.

(** ** The claim loop *)

Lemma statement_not_number (claimLine : string) :
  Pftaps.testStatement claimLine = true -> Pftaps.testNumber claimLine = false.
Proof.
  unfold Pftaps.testStatement, Pftaps.testNumber.
  destruct claimLine as [|c s]; [discriminate|].
  cbn [startsWith]. intros H.
  destruct (Ascii.eqb_spec "S"%char c) as [<-|]; [reflexivity | discriminate H].
Qed.

Lemma claimStep_text (len : nat) (st : Pftaps.ClaimState) (claimLine : string) :
  textLine claimLine = true ->
  Pftaps.claimStep len st claimLine
  = Returned
      {| Pftaps.claimData :=
           if (len =? 1)%nat
           then Pftaps.claimData st
                ++ [String.append (Pftaps.accumulatedClaimLine st) (claimText claimLine)]
           else Pftaps.claimData st;
         Pftaps.claimNumber := Pftaps.claimNumber st;
         Pftaps.accumulatedClaimLine :=
           String.append (Pftaps.accumulatedClaimLine st) (claimText claimLine) |}.
Proof.
  unfold textLine, Pftaps.claimStep. intros H.
  apply andb_true_iff in H as [Hn Hs].
  apply negb_true_iff in Hn, Hs. now rewrite Hn, Hs.
Qed.

Lemma claimStep_statement (len : nat) (st : Pftaps.ClaimState) (claimLine : string) :
  Pftaps.testStatement claimLine = true ->
  Pftaps.claimStep len st claimLine = Returned st.
Proof.
  intros H. unfold Pftaps.claimStep.
  now rewrite (statement_not_number _ H), H.
Qed.

(** A run of text lines in a section of several lines only grows the
    accumulated text. *)
Lemma forOf_text_lines (len : nat) (claimLines : list string) :
  len <> 1 ->
  forallb textLine claimLines = true ->
  forall st,
  forOf claimLines (Pftaps.claimStep len) st
  = Returned
      {| Pftaps.claimData := Pftaps.claimData st;
         Pftaps.claimNumber := Pftaps.claimNumber st;
         Pftaps.accumulatedClaimLine :=
           String.append (Pftaps.accumulatedClaimLine st) (joinText claimLines) |}.
Proof.
  intros Hlen. induction claimLines as [|l ls IH]; intros Hall st; simpl.
  - rewrite append_empty_r. now destruct st.
  - simpl in Hall. apply andb_true_iff in Hall as [Hl Hls].
    rewrite (claimStep_text _ _ _ Hl). simpl.
    apply Nat.eqb_neq in Hlen. rewrite Hlen.
    rewrite (IH Hls). simpl. now rewrite append_assoc.
Qed.

(** On a marker line spaced with two spaces the loop flushes the
    accumulated text, when there is some. *)
Lemma split_spaced_marker (rest : string) :
  nth_error (split (String.append "NUM  " rest) "  ") 1
  = Some (textBefore "  " rest).
Proof.
  assert (Hne : "  " <> EmptyString) by discriminate.
  rewrite (split_unfold _ _ Hne).
  change (String.append "NUM  " rest) with (String.append "NUM" (String.append "  " rest)).
  assert (C : cut "  " (String.append "NUM" (String.append "  " rest))
              = Some ("NUM", rest)).
  { simpl. destruct rest as [|c r]; reflexivity. }
  rewrite C. simpl. rewrite (split_unfold _ _ Hne). unfold textBefore.
  now destruct (cut "  " rest) as [[b a]|].
Qed.

Lemma startsWith_exists (s p : string) :
  startsWith s p = true -> exists r, s = String.append p r.
Proof. intros H. eexists. exact (startsWith_inv _ _ H). Qed.

Lemma claimStep_spaced (len : nat) (st : Pftaps.ClaimState) (claimLine : string) :
  spacedMarker claimLine = true ->
  exists number,
    Pftaps.claimStep len st claimLine
    = Returned
        {| Pftaps.claimData :=
             if String.eqb (Pftaps.accumulatedClaimLine st) EmptyString
             then Pftaps.claimData st
             else Pftaps.claimData st ++ [Pftaps.accumulatedClaimLine st];
           Pftaps.claimNumber := number;
           Pftaps.accumulatedClaimLine := EmptyString |}.
Proof.
  unfold spacedMarker. intros H. apply andb_true_iff in H as [Hn Hs].
  unfold Pftaps.claimStep. rewrite Hn.
  destruct (startsWith_exists _ _ Hs) as [rest ->].
  rewrite split_spaced_marker. eexists. reflexivity.
Qed.

Lemma joinText_not_empty (claimLines : list string) :
  claimLines <> [] -> joinText claimLines <> EmptyString.
Proof.
  destruct claimLines as [|l ls]; [congruence|]. intros _. simpl. unfold claimText.
  destruct (trim (Pftaps.replaceParagraphPrefix l)); simpl; discriminate.
Qed.

(** X1. A claim section of one text line gives one claim: the line without
    its paragraph prefix, trimmed. *)
Theorem single_line_claim (claimLine : string) :
  textLine claimLine = true ->
  Pftaps.assembleClaims [claimLine]
  = Returned [trim (Pftaps.replaceParagraphPrefix claimLine)].
Proof.
  intros H. unfold Pftaps.assembleClaims. simpl.
  rewrite (claimStep_text _ _ _ H). simpl. unfold claimText.
  now rewrite trim_append_space.
Qed.

Lemma single_line_claim_witness :
  Pftaps.assembleClaims ["PAL  The ornamental design for a chair."]
  = Returned ["The ornamental design for a chair."].
Proof.
  exact (single_line_claim "PAL  The ornamental design for a chair." eq_refl).
Defined.

(** X2. Between two claim-number markers the text lines make one claim:
    each line without its paragraph prefix and trimmed, the lines joined by
    single spaces.  The text lines after the second marker add nothing. *)
Theorem claim_between_markers (m1 m2 : string) (ts ts' : list string) :
  spacedMarker m1 = true ->
  spacedMarker m2 = true ->
  ts <> [] ->
  forallb textLine ts = true ->
  forallb textLine ts' = true ->
  Pftaps.assembleClaims (m1 :: ts ++ m2 :: ts') = Returned [trim (joinText ts)].
Proof.
  intros H1 H2 Hne Hts Hts'. unfold Pftaps.assembleClaims.
  set (len := List.length (m1 :: ts ++ m2 :: ts')).
  assert (Hlen : len <> 1).
  { subst len. simpl. rewrite length_app. simpl. lia. }
  cbn [forOf].
  destruct (claimStep_spaced len Pftaps.initialClaimState m1 H1) as [n1 ->].
  cbn [bind]. rewrite forOf_app, (forOf_text_lines len ts Hlen Hts).
  cbn [bind forOf Pftaps.claimData Pftaps.claimNumber Pftaps.accumulatedClaimLine].
  match goal with
  | |- context [Pftaps.claimStep len ?st m2] =>
      destruct (claimStep_spaced len st m2 H2) as [n2 ->]
  end.
  cbn [bind Pftaps.claimData Pftaps.claimNumber Pftaps.accumulatedClaimLine
       String.eqb String.append].
  pose proof (joinText_not_empty ts Hne) as J.
  apply String.eqb_neq in J. rewrite J.
  rewrite (forOf_text_lines len ts' Hlen Hts'). reflexivity.
Qed.

Lemma claim_between_markers_witness :
  Pftaps.assembleClaims
    ("NUM  1." :: ["PA1  First claim."; "PAL  Its first part."]
               ++ "NUM  2." :: ["PA1  Second claim."])
  = Returned [trim (joinText ["PA1  First claim."; "PAL  Its first part."])].
Proof.
  apply claim_between_markers; [reflexivity | reflexivity | discriminate
                               | reflexivity | reflexivity].
Defined.

Lemma claimStep_len (n m : nat) (st : Pftaps.ClaimState) (claimLine : string) :
  n <> 1 -> m <> 1 ->
  Pftaps.claimStep n st claimLine = Pftaps.claimStep m st claimLine.
Proof.
  intros Hn Hm. unfold Pftaps.claimStep.
  apply Nat.eqb_neq in Hn, Hm. now rewrite Hn, Hm.
Qed.

Lemma forOf_ext {A S : Type} (f g : S -> A -> outcome S) (xs : list A) :
  (forall s x, f s x = g s x) -> forall s, forOf xs f s = forOf xs g s.
Proof.
  intros H. induction xs as [|x xs IH]; intros s; simpl; [reflexivity|].
  rewrite H. destruct (g s x); simpl; [apply IH | reflexivity].
Qed.

(** X3. Statement lines (STM) never change the state of the claim loop:
    the loop gives the same state with them taken out, and the claims of a
    section are those of the section without them, as long as neither has
    exactly one line. *)
Theorem statement_lines_skipped :
  (forall len claimLines st,
     forOf claimLines (Pftaps.claimStep len) st
     = forOf (filter (fun l => negb (Pftaps.testStatement l)) claimLines)
         (Pftaps.claimStep len) st)
  /\ (forall claimLines,
        let kept := filter (fun l => negb (Pftaps.testStatement l)) claimLines in
        List.length claimLines <> 1 ->
        List.length kept <> 1 ->
        Pftaps.assembleClaims claimLines = Pftaps.assembleClaims kept).
Proof.
  assert (Hskip : forall len claimLines st,
     forOf claimLines (Pftaps.claimStep len) st
     = forOf (filter (fun l => negb (Pftaps.testStatement l)) claimLines)
         (Pftaps.claimStep len) st).
  { intros len claimLines. induction claimLines as [|l ls IH]; intros st; simpl;
      [reflexivity|].
    destruct (Pftaps.testStatement l) eqn:E; simpl.
    - rewrite (claimStep_statement _ _ _ E). simpl. apply IH.
    - destruct (Pftaps.claimStep len st l); simpl; [apply IH | reflexivity]. }
  split; [exact Hskip|].
  intros claimLines kept H1 H2. unfold Pftaps.assembleClaims.
  rewrite Hskip. fold kept.
  now rewrite (forOf_ext _ _ kept (fun s x => claimStep_len _ _ s x H1 H2)).
Qed.

Lemma statement_lines_skipped_witness :
  Pftaps.assembleClaims ["NUM  1."; "STM  What is claimed is:"; "PA1  A."; "NUM  2."]
  = Pftaps.assembleClaims ["NUM  1."; "PA1  A."; "NUM  2."].
Proof.
  refine (proj2 statement_lines_skipped
            ["NUM  1."; "STM  What is claimed is:"; "PA1  A."; "NUM  2."] _ _);
    simpl; discriminate.
Defined.

(** *** When the claims are [null] *)

Lemma digit_not_space (c : ascii) : isDigit c = true -> Ascii.eqb " "%char c = false.
Proof.
  intros H. destruct (Ascii.eqb_spec " "%char c) as [<-|]; [discriminate H | reflexivity].
Qed.

Lemma cut_spaces_digits (s : string) :
  Pftaps.skipDigits s = "." -> cut "  " s = None.
Proof.
  induction s as [|c s IH]; cbn [Pftaps.skipDigits cut startsWith]; [discriminate|].
  destruct (isDigit c) eqn:D; intros H.
  - rewrite (digit_not_space _ D). cbn [andb]. now rewrite (IH H).
  - inversion H; subst. reflexivity.
Qed.

Lemma cut_spaces_digitsDot (rest : string) :
  Pftaps.digitsDot rest = Some EmptyString ->
  cut "  " rest = None /\ startsWith rest " " = false.
Proof.
  unfold Pftaps.digitsDot. destruct rest as [|d r]; [discriminate|].
  destruct (isDigit d) eqn:D; [|discriminate].
  destruct (Pftaps.skipDigits r) as [|e t] eqn:K; [discriminate|].
  destruct (Ascii.eqb_spec e "."%char) as [->|]; [|discriminate].
  intros H. inversion H; subst.
  cbn [cut startsWith]. rewrite (digit_not_space _ D). cbn [andb].
  now rewrite (cut_spaces_digits _ K).
Qed.

Lemma cut_skip (sep s : string) (c : ascii) :
  startsWith (String c s) sep = false ->
  cut sep s = None ->
  cut sep (String c s) = None.
Proof. intros H C. cbn [cut]. now rewrite H, C. Qed.

Lemma startsWith_cons (s p : string) (c x : ascii) :
  startsWith (String c s) (String x p) = Ascii.eqb x c && startsWith s p.
Proof. reflexivity. Qed.

Lemma startsWith_common (p s q : string) :
  startsWith (String.append p s) (String.append p q) = startsWith s q.
Proof.
  induction p as [|x p IH]; [reflexivity|].
  cbn [String.append]. now rewrite startsWith_cons, Ascii.eqb_refl, IH.
Qed.

(** A marker line spaced with anything but two spaces has no two spaces
    at all: [split('  ')] gives one piece, and [[1]] is [undefined]. *)
Lemma odd_marker_one_piece (claimLine : string) :
  oddMarker claimLine = true ->
  nth_error (split claimLine "  ") 1 = None.
Proof.
  unfold oddMarker, Pftaps.testNumber. intros H.
  apply andb_true_iff in H as [H Hodd].
  apply andb_true_iff in H as [Hnum Hrest].
  apply negb_true_iff in Hodd.
  destruct (startsWith_exists _ _ Hnum) as [tail ->].
  change (drop 3 (String.append "NUM" tail)) with tail in Hrest.
  change "NUM  " with (String.append "NUM" "  ") in Hodd.
  rewrite startsWith_common in Hodd.
  unfold Pftaps.twoSpaces in Hrest.
  destruct tail as [|a [|b rest]]; try discriminate.
  destruct (isSpace a && isSpace b); [|discriminate].
  destruct (Pftaps.digitsDot rest) as [[|x y]|] eqn:D; try discriminate.
  destruct (cut_spaces_digitsDot _ D) as [C S].
  assert (Hne : "  " <> EmptyString) by discriminate.
  rewrite (split_unfold _ _ Hne).
  assert (N : cut "  " (String.append "NUM" (String a (String b rest))) = None).
  { cbn [String.append].
    do 3 (apply cut_skip; [reflexivity|]).
    apply cut_skip; [exact Hodd|].
    apply cut_skip; [|exact C].
    rewrite startsWith_cons, S. apply andb_false_r. }
  now rewrite N.
Qed.

Lemma claimStep_odd (len : nat) (st : Pftaps.ClaimState) (claimLine : string) :
  oddMarker claimLine = true ->
  Pftaps.claimStep len st claimLine = Thrown TypeError.
Proof.
  intros H. unfold Pftaps.claimStep.
  rewrite (odd_marker_one_piece _ H).
  unfold oddMarker in H. apply andb_true_iff in H as [-> _]. reflexivity.
Qed.

Lemma claimStep_not_odd (len : nat) (st : Pftaps.ClaimState) (claimLine : string) :
  oddMarker claimLine = false ->
  exists st', Pftaps.claimStep len st claimLine = Returned st'.
Proof.
  intros H. destruct (Pftaps.testNumber claimLine) eqn:N.
  - assert (S : spacedMarker claimLine = true).
    { unfold spacedMarker, oddMarker in *. rewrite N in *. simpl in *.
      now apply negb_false_iff in H. }
    destruct (claimStep_spaced len st _ S) as [number ->]. eexists; reflexivity.
  - unfold Pftaps.claimStep. rewrite N.
    destruct (Pftaps.testStatement claimLine); eexists; reflexivity.
Qed.

Lemma forOf_claimStep_cases (len : nat) (claimLines : list string) :
  forall st,
  if existsb oddMarker claimLines
  then forOf claimLines (Pftaps.claimStep len) st = Thrown TypeError
  else exists st', forOf claimLines (Pftaps.claimStep len) st = Returned st'.
Proof.
  induction claimLines as [|l ls IH]; intros st; simpl.
  - eexists; reflexivity.
  - destruct (oddMarker l) eqn:O; simpl.
    + now rewrite (claimStep_odd _ _ _ O).
    + destruct (claimStep_not_odd len st _ O) as [st1 ->]. simpl. apply IH.
Qed.

Lemma splitAltFuel_not_empty (fuel : nat) (alts : list string) (tail s : string) :
  splitAltFuel fuel alts tail s <> [].
Proof.
  destruct fuel; simpl; [discriminate|].
  destruct (cutAlt alts tail s) as [[[b cap] a]|]; discriminate.
Qed.

(** [pop] is not called on an empty array: the claim lines are always
    there. *)
Lemma claimLines_returned (section : string) :
  exists claimLines, Pftaps.claimLines section = Returned claimLines.
Proof.
  unfold Pftaps.claimLines, Pftaps.pop, splitAlt.
  destruct (rev _) as [|x l] eqn:R.
  - apply (f_equal (@rev string)) in R. rewrite rev_involutive in R. simpl in R.
    now apply splitAltFuel_not_empty in R.
  - eexists; reflexivity.
Qed.

(** X4. The claims of a legacy record are [null] exactly when one of its
    claim lines passes the marker test with white space other than two
    spaces (as NUM, a tab, a space, digits and a dot): reading the claim
    number then throws, and the whole claims field is lost. *)
Theorem claims_null_iff_odd_marker (section : string) (fn : option string) :
  patentClaims (Pftaps.processedPatentData section fn) = JNull
  <-> exists claimLines,
        Pftaps.claimLines section = Returned claimLines
        /\ existsb oddMarker claimLines = true.
Proof.
  unfold Pftaps.processedPatentData, processTries. simpl.
  destruct (claimLines_returned section) as [ls E]. rewrite E. simpl.
  unfold Pftaps.assembleClaims.
  pose proof (forOf_claimStep_cases (List.length ls) ls Pftaps.initialClaimState) as C.
  destruct (existsb oddMarker ls) eqn:O.
  - rewrite C. simpl. split; [|reflexivity].
    intros _. exists ls. now split.
  - destruct C as [st' ->]. simpl. split; [discriminate|].
    intros (ls' & E' & O'). inversion E'; subst. congruence.
Qed.

Lemma claims_null_iff_odd_marker_witness :
  patentClaims
    (Pftaps.processedPatentData
       (String.concat CRLF
          ["PNO  1"; "CLMS"; String.append "NUM" (String TAB (String TAB "1."));
           "PA1  A widget."; EmptyString]) None)
  = JNull.
Proof.
  apply (proj2 (claims_null_iff_odd_marker _ None)).
  eexists. split; [vm_compute; reflexivity | vm_compute; reflexivity].
Defined.

(** X5. Every claim the loop returns is trimmed: it has no white space at
    either end. *)
Theorem claims_are_trimmed (claimLines claims : list string) :
  Pftaps.assembleClaims claimLines = Returned claims ->
  Forall trimmed claims.
Proof.
  unfold Pftaps.assembleClaims.
  destruct (forOf claimLines _ _) as [st|e]; simpl; [|discriminate].
  intros H. inversion H; subst.
  apply Forall_forall. intros c Hin. apply in_map_iff in Hin as (x & <- & _).
  apply trim_idempotent.
Qed.

Lemma claims_are_trimmed_witness :
  Forall trimmed ["First claim. Its first part."].
Proof.
  apply (claims_are_trimmed twoClaimLines). vm_compute. reflexivity.
Defined.

Lemma claimStep_count (len : nat) (claimLines : list string) :
  len <> 1 ->
  forall st st',
  forOf claimLines (Pftaps.claimStep len) st = Returned st' ->
  List.length (Pftaps.claimData st')
  <= List.length (Pftaps.claimData st)
     + List.length (filter Pftaps.testNumber claimLines).
Proof.
  intros Hlen. induction claimLines as [|l ls IH]; intros st st' H; simpl in H.
  - inversion H; subst. simpl. lia.
  - destruct (Pftaps.claimStep len st l) as [st1|e] eqn:S; simpl in H; [|discriminate].
    specialize (IH _ _ H).
    unfold Pftaps.claimStep in S. simpl.
    destruct (Pftaps.testNumber l) eqn:N.
    + destruct (nth_error _ 1); [|discriminate]. inversion S; subst. simpl in *.
      destruct (String.eqb _ _); simpl in *; [lia|].
      rewrite length_app in IH. simpl in IH. lia.
    + destruct (Pftaps.testStatement l).
      * inversion S; subst. exact IH.
      * inversion S; subst. simpl in IH.
        apply Nat.eqb_neq in Hlen. rewrite Hlen in IH. exact IH.
Qed.

(** X6. In a claim section of several lines a claim is only pushed at a
    claim-number marker: there are at most as many claims as marker
    lines. *)
Theorem claims_at_most_markers (claimLines claims : list string) :
  List.length claimLines <> 1 ->
  Pftaps.assembleClaims claimLines = Returned claims ->
  List.length claims <= List.length (filter Pftaps.testNumber claimLines).
Proof.
  intros Hlen. unfold Pftaps.assembleClaims.
  destruct (forOf claimLines _ _) as [st|e] eqn:F; simpl; [|discriminate].
  intros H. inversion H; subst. rewrite length_map.
  exact (claimStep_count _ _ Hlen _ _ F).
Qed.

Lemma claims_at_most_markers_witness :
  List.length ["First claim. Its first part."]
  <= List.length (filter Pftaps.testNumber twoClaimLines).
Proof.
  apply (claims_at_most_markers twoClaimLines); [simpl; discriminate|].
  vm_compute. reflexivity.
Defined.

(** ** Record substrings of the legacy dialect *)

Lemma cut_none_iff (sep s : string) :
  cut sep s = None <-> ~ occursIn sep s.
Proof.
  split.
  - intros C (x & y & E).
    pose proof (cut_none _ _ C x _ E) as F. now rewrite startsWith_append in F.
  - intros H. destruct (cut sep s) as [[b a]|] eqn:C; [|reflexivity].
    exfalso. apply H. exists b, a. now apply cut_some.
Qed.

Lemma concat_split (s sep : string) :
  sep <> EmptyString -> String.concat sep (split s sep) = s.
Proof.
  intros Hsep.
  induction s as [s C|s b a C IH] using (fun P => split_ind sep P Hsep);
    rewrite (split_unfold _ _ Hsep), C; [reflexivity|].
  cbn [String.concat].
  destruct (split a sep) as [|p ps] eqn:E.
  - rewrite (split_unfold _ _ Hsep) in E.
    destruct (cut sep a) as [[? ?]|]; discriminate.
  - rewrite IH. symmetry. now apply cut_some.
Qed.

Lemma recordMarker_not_empty : Pftaps.recordMarker <> EmptyString.
Proof. discriminate. Qed.

(** X7. The blob of the legacy dialect is its header, the text before the
    first record marker, followed by the record substrings, each after a
    marker: joined with the marker they give the blob back, so nothing
    after the first marker is lost, repeated or moved. *)
Theorem sections_round_trip (pftapsData : string) :
  exists header,
    split pftapsData Pftaps.recordMarker = header :: Pftaps.sections pftapsData
    /\ String.concat Pftaps.recordMarker (header :: Pftaps.sections pftapsData)
       = pftapsData
    /\ ~ occursIn Pftaps.recordMarker header.
Proof.
  unfold Pftaps.sections.
  pose proof (concat_split pftapsData _ recordMarker_not_empty) as R.
  pose proof (split_pieces_free pftapsData _ recordMarker_not_empty) as F.
  destruct (split pftapsData Pftaps.recordMarker) as [|header rest] eqn:E.
  - rewrite (split_unfold _ _ recordMarker_not_empty) in E.
    destruct (cut _ _) as [[? ?]|]; discriminate.
  - exists header. repeat split; [exact R|].
    intros (x & y & Hxy). exact (F header (or_introl eq_refl) x y Hxy).
Qed.

(** X8. The record marker is consumed: no record substring of the legacy
    dialect contains it. *)
Theorem sections_without_marker (pftapsData section : string) :
  In section (Pftaps.sections pftapsData) ->
  ~ occursIn Pftaps.recordMarker section.
Proof.
  intros Hin (x & y & E).
  apply (split_pieces_free pftapsData _ recordMarker_not_empty section) with (x := x) (y := y);
    [|exact E].
  unfold Pftaps.sections in Hin.
  destruct (split pftapsData Pftaps.recordMarker); [destruct Hin | now right].
Qed.

Lemma sections_without_marker_witness :
  ~ occursIn Pftaps.recordMarker
      (String.concat CRLF ["PNO  12345"; "APD  19900101"; "TTL  A Widget"; "CLMS";
                           "NUM  1."; "PA1  A widget comprising X."; EmptyString]).
Proof.
  apply (sections_without_marker widgetBlob). vm_compute. now left.
Defined.

(** X9. The legacy converter returns no record exactly when the record
    marker occurs nowhere in the blob; text without a marker is a header,
    and is dropped whole. *)
Theorem no_marker_no_record (pftapsData : string) (fn : option string) :
  convertUsptoPftapsDataToJs pftapsData fn = Returned []
  <-> ~ occursIn Pftaps.recordMarker pftapsData.
Proof.
  rewrite convertUsptoPftapsDataToJs_map, <- cut_none_iff.
  unfold Pftaps.sections. rewrite (split_unfold _ _ recordMarker_not_empty).
  destruct (cut Pftaps.recordMarker pftapsData) as [[b a]|]; simpl.
  - rewrite (split_unfold _ _ recordMarker_not_empty).
    split; [|discriminate].
    destruct (cut Pftaps.recordMarker a) as [[? ?]|]; simpl; discriminate.
  - split; reflexivity.
Qed.

Lemma no_marker_no_record_witness :
  convertUsptoPftapsDataToJs "PNO  12345" None = Returned [].
Proof.
  apply (proj2 (no_marker_no_record "PNO  12345" None)).
  apply cut_none_iff. vm_compute. reflexivity.
Defined.

(** ** Record substrings of the XML dialects *)

Lemma length_take (n : nat) (s : string) :
  n <= String.length s -> String.length (take n s) = n.
Proof.
  revert s; induction n as [|n IH]; intros [|c s]; simpl; intros H; try lia.
  rewrite IH; lia.
Qed.

Lemma take_append (a b : string) : take (String.length a) (String.append a b) = a.
Proof. induction a as [|x a IH]; simpl; [now destruct b | now rewrite IH]. Qed.

Lemma startsWithCI_length (s p : string) :
  startsWithCI s p = true -> String.length p <= String.length s.
Proof.
  revert s; induction p as [|x p IH]; intros s H; simpl in *; [lia|].
  destruct s as [|y s]; [discriminate|].
  apply andb_true_iff in H as [_ H]. apply IH in H. simpl. lia.
Qed.

Lemma startsWithCI_take (s p : string) :
  startsWithCI s p = true -> startsWithCI (take (String.length p) s) p = true.
Proof.
  revert s; induction p as [|x p IH]; intros s H; simpl in *; [reflexivity|].
  destruct s as [|y s]; [discriminate|].
  apply andb_true_iff in H as [Hxy H]. simpl. now rewrite Hxy, IH.
Qed.

Lemma startsWithCI_append (s t p : string) :
  startsWithCI s p = true -> startsWithCI (String.append s t) p = true.
Proof.
  revert s; induction p as [|x p IH]; intros s H; simpl in *; [reflexivity|].
  destruct s as [|y s]; [discriminate|].
  apply andb_true_iff in H as [Hxy H]. simpl. now rewrite Hxy, IH.
Qed.

(** The text at an occurrence found under the [i] flag. *)
Lemma startsWithCI_split (s p : string) :
  startsWithCI s p = true ->
  exists o, s = String.append o (drop (String.length p) s) /\ sameTextCI o p.
Proof.
  intros H. exists (take (String.length p) s). split.
  - symmetry. apply take_drop.
  - split; [|now apply startsWithCI_take].
    apply length_take. now apply startsWithCI_length.
Qed.

Lemma cutCI_some (sep s b a : string) :
  cutCI sep s = Some (b, a) ->
  exists c, s = String.append b (String.append c a) /\ sameTextCI c sep.
Proof.
  revert b a; induction s as [|x s IH]; intros b a H.
  - simpl in H. destruct (startsWithCI EmptyString sep) eqn:E; [|discriminate].
    inversion H; subst. destruct (startsWithCI_split _ _ E) as (o & Ho & So).
    exists o. now split.
  - simpl in H. destruct (startsWithCI (String x s) sep) eqn:E.
    + inversion H; subst. destruct (startsWithCI_split _ _ E) as (o & Ho & So).
      exists o. now split.
    + destruct (cutCI sep s) as [[b' a']|] eqn:C; [|discriminate].
      inversion H; subst. destruct (IH _ _ eq_refl) as (c & Hc & Sc).
      exists c. split; [simpl; now rewrite <- Hc | exact Sc].
Qed.

Lemma cutCI_some_leftmost (sep s b a : string) :
  cutCI sep s = Some (b, a) ->
  forall b1 b2 rest, s = String.append b1 (String.append b2 rest) ->
  b = String.append b1 b2 -> b2 <> EmptyString ->
  startsWithCI (String.append b2 rest) sep = false.
Proof.
  revert b a; induction s as [|x s IH]; intros b a H b1 b2 rest Hs Hb Hne.
  - destruct b1; destruct b2; simpl in Hs; congruence.
  - simpl in H. destruct (startsWithCI (String x s) sep) eqn:E.
    + assert (Hb0 : b = EmptyString) by congruence. rewrite Hb0 in Hb.
      destruct b1; destruct b2; simpl in Hb; congruence.
    + destruct (cutCI sep s) as [[b' a']|] eqn:C; [|discriminate].
      assert (Hb' : b = String x b') by congruence.
      assert (Ha' : a = a') by congruence. subst a'. rewrite Hb' in Hb.
      destruct b1 as [|y b1]; simpl in Hb, Hs.
      * rewrite <- Hs. exact E.
      * inversion Hb; inversion Hs; subst.
        now apply (IH _ _ eq_refl b1 b2 rest).
Qed.

Lemma append_cancel_l (a b c : string) :
  String.append a b = String.append a c -> b = c.
Proof. induction a as [|x a IH]; simpl; intros H; [exact H | inversion H; auto]. Qed.

(** A match at a position has the shape of a span. *)
Lemma matchSpanAt_shape (opening closing s : string) (n : nat) :
  matchSpanAt opening closing s = Some n ->
  spanShape opening closing (take n s).
Proof.
  unfold matchSpanAt.
  destruct (startsWithCI s opening) eqn:O; [|discriminate].
  destruct (startsWithCI_split _ _ O) as (o & Hs & So).
  destruct (drop (String.length opening) s) as [|w rest] eqn:D; [discriminate|].
  destruct (isSpace w) eqn:W; [|discriminate].
  destruct (cutCI closing rest) as [[body a]|] eqn:C; [|discriminate].
  intros H. inversion H; subst n. clear H.
  destruct (cutCI_some _ _ _ _ C) as (c & Hrest & Sc).
  exists o, w, body, c.
  assert (Hlen : String.length opening + 1 + String.length body + String.length closing
                 = String.length (String.append o (String w (String.append body c)))).
  { rewrite length_append. simpl. rewrite length_append.
    destruct So as [-> _]. destruct Sc as [-> _]. lia. }
  repeat split; try assumption; try apply So; try apply Sc.
  - rewrite Hlen, Hs, Hrest.
    replace (String.append o (String w (String.append body (String.append c a))))
      with (String.append (String.append o (String w (String.append body c))) a).
    + apply take_append.
    + rewrite append_assoc. simpl. now rewrite append_assoc.
  - intros b1 b2 Hb Hne.
    destruct (startsWithCI (String.append b2 c) closing) eqn:F; [|reflexivity].
    assert (G : startsWithCI (String.append b2 (String.append c a)) closing = false).
    { apply (cutCI_some_leftmost _ _ _ _ C b1 b2 (String.append c a));
        [|assumption|assumption].
      rewrite Hrest, Hb. now rewrite append_assoc. }
    rewrite <- append_assoc in G.
    now rewrite (startsWithCI_append _ a _ F) in G.
Qed.

Lemma matchAllFuel_shape (opening closing : string) (fuel : nat) :
  forall s span,
  In span (matchAllFuel fuel opening closing s) -> spanShape opening closing span.
Proof.
  induction fuel as [|fuel IH]; intros s span Hin; simpl in Hin; [destruct Hin|].
  destruct s as [|x s]; [destruct Hin|].
  destruct (matchSpanAt opening closing (String x s)) as [n|] eqn:M.
  - destruct Hin as [<-|Hin]; [now apply matchSpanAt_shape | now apply (IH _ _ Hin)].
  - now apply (IH _ _ Hin).
Qed.

(** X10. Every record substring of the XML dialects has the shape the
    delimiter rule asks for: the opening tag in any letter case, one
    white-space character, a body, and the closing tag in any letter case,
    which starts nowhere before (the lazy match stops at the first one). *)
Theorem spans_have_shape (xmlData opening closing : string)
    (sections : list string) (span : string) :
  matchSpans xmlData opening closing = Some sections ->
  In span sections ->
  spanShape opening closing span.
Proof.
  unfold matchSpans. intros H Hin.
  destruct (matchAllFuel _ _ _ _) as [|y l] eqn:E; [discriminate|].
  inversion H; subst.
  apply (matchAllFuel_shape opening closing (String.length xmlData) xmlData).
  now rewrite E.
Qed.

Lemma spans_have_shape_witness :
  spanShape Version2.openingTag Version2.closingTag emptyPatdocText.
Proof.
  apply (spans_have_shape twoPatdocsBlob _ _ [titledPatdocText; emptyPatdocText]).
  - vm_compute. reflexivity.
  - right. now left.
Defined.

Lemma cutCI_none (sep s : string) :
  cutCI sep s = None ->
  forall x y, s = String.append x y -> startsWithCI y sep = false.
Proof.
  induction s as [|c s IH]; intros H x y Hs.
  - simpl in H. destruct (startsWithCI EmptyString sep) eqn:E; [discriminate|].
    destruct x; destruct y; simpl in *; congruence.
  - simpl in H. destruct (startsWithCI (String c s) sep) eqn:E; [discriminate|].
    destruct (cutCI sep s) as [[b' a']|] eqn:C; [discriminate|].
    destruct x as [|z x]; simpl in Hs.
    + now subst y.
    + inversion Hs; subst. now apply (IH eq_refl x y).
Qed.

Lemma matchSpanAt_needs_closing (opening closing s : string) (n : nat) :
  matchSpanAt opening closing s = Some n ->
  exists x y, s = String.append x y /\ startsWithCI y closing = true.
Proof.
  unfold matchSpanAt.
  destruct (startsWithCI s opening) eqn:O; [|discriminate].
  pose proof (take_drop (String.length opening) s) as Hs.
  destruct (drop (String.length opening) s) as [|w rest] eqn:D; [discriminate|].
  destruct (isSpace w); [|discriminate].
  destruct (cutCI closing rest) as [[body a]|] eqn:C; [|discriminate].
  intros _. destruct (cutCI_some _ _ _ _ C) as (c & Hrest & Sc).
  exists (String.append (take (String.length opening) s) (String w body)),
         (String.append c a).
  split.
  - rewrite <- Hs at 1. rewrite Hrest, append_assoc. reflexivity.
  - apply startsWithCI_append, Sc.
Qed.

Lemma matchAllFuel_no_closing (opening closing : string) (fuel : nat) :
  forall s,
  (forall x y, s = String.append x y -> startsWithCI y closing = false) ->
  matchAllFuel fuel opening closing s = [].
Proof.
  induction fuel as [|fuel IH]; intros s H; simpl; [reflexivity|].
  destruct s as [|c s]; [reflexivity|].
  destruct (matchSpanAt opening closing (String c s)) as [n|] eqn:M.
  - destruct (matchSpanAt_needs_closing _ _ _ _ M) as (x & y & Hs & Hy).
    now rewrite (H x y Hs) in Hy.
  - apply IH. intros x y Hs. apply (H (String c x) y). simpl. now rewrite Hs.
Qed.

(** X11. A blob in which the closing tag occurs nowhere, in any letter
    case, has no record substring: [match] returns [null] and the XML
    converter throws a [TypeError], whatever the parser is.  So a blob
    whose only record is truncated is an error, not an empty result. *)
Theorem no_closing_tag_throws :
  (forall parse xmlData,
     cutCI Version4.closingTag xmlData = None ->
     convertUsptoVersion4XmlDataToJs parse xmlData = Thrown TypeError)
  /\ (forall parse xmlData fn,
        cutCI Version2.closingTag xmlData = None ->
        convertUsptoVersion2XmlDataToJs parse xmlData fn = Thrown TypeError).
Proof.
  split.
  - intros parse xmlData H. apply no_span_Version4. unfold matchSpans.
    now rewrite (matchAllFuel_no_closing _ _ _ _ (cutCI_none _ _ H)).
  - intros parse xmlData fn H. apply no_span_Version2. unfold matchSpans.
    now rewrite (matchAllFuel_no_closing _ _ _ _ (cutCI_none _ _ H)).
Qed.

Lemma no_closing_tag_throws_witness :
  convertUsptoVersion2XmlDataToJs sampleParser "<PATDOC ><SDOBI></SDOBI>" None
  = Thrown TypeError.
Proof.
  apply (proj2 no_closing_tag_throws). vm_compute. reflexivity.
Defined.

(** ** Fields of the legacy dialect read from a prefixed line *)

Lemma textBefore_prefix (sep s : string) :
  exists tail, s = String.append (textBefore sep s) tail.
Proof.
  unfold textBefore. destruct (cut sep s) as [[b a]|] eqn:C.
  - exists (String.append sep a). now apply cut_some.
  - exists EmptyString. now rewrite append_empty_r.
Qed.

Lemma textBefore_free (sep s : string) :
  sep <> EmptyString -> ~ occursIn sep (textBefore sep s).
Proof.
  intros Hsep (x & y & E). unfold textBefore in E.
  destruct (cut sep s) as [[b a]|] eqn:C.
  - assert (Hne : String.append sep y <> EmptyString) by (destruct sep; simpl; congruence).
    pose proof (cut_some_leftmost _ _ _ _ C x _ E Hne) as F.
    now rewrite append_assoc, startsWith_append in F.
  - pose proof (cut_none _ _ C x _ E) as F. now rewrite startsWith_append in F.
Qed.

Lemma drop_suffix (n : nat) (s : string) :
  exists head, s = String.append head (drop n s).
Proof. exists (take n s). symmetry. apply take_drop. Qed.

(** X12. When the prefix does not occur again on the line, a field of the
    legacy dialect read from a prefixed line is the whole rest of the first
    line that starts with the prefix. *)
Theorem prefixed_field_is_rest_of_line (section : string) (fn : option string)
    (f : Field) (prefix rest : string) :
  linePrefix f = Some prefix ->
  find (fun line => startsWith line prefix) (Pftaps.lines section)
  = Some (String.append prefix rest) ->
  ~ occursIn prefix rest ->
  getField f (pftapsRecord fn section) = JStr rest.
Proof.
  intros P F N. rewrite (linePrefix_field _ _ _ _ P), F, drop_append.
  unfold textBefore. apply cut_none_iff in N. now rewrite N.
Qed.

Lemma prefixed_field_is_rest_of_line_witness :
  getField InventionTitle
    (pftapsRecord None
       (String.concat CRLF ["PNO  12345"; "TTL  A Widget"; "TTL  Another"; EmptyString]))
  = JStr "A Widget".
Proof.
  apply (prefixed_field_is_rest_of_line _ None InventionTitle "TTL  " "A Widget").
  - reflexivity.
  - vm_compute. reflexivity.
  - apply cut_none_iff. vm_compute. reflexivity.
Defined.

(** X13. A field of the legacy dialect read from a prefixed line never
    contains its own prefix (the value stops where the prefix occurs again)
    nor a line terminator. *)
Theorem prefixed_field_free (section : string) (fn : option string)
    (f : Field) (prefix value : string) :
  linePrefix f = Some prefix ->
  getField f (pftapsRecord fn section) = JStr value ->
  ~ occursIn prefix value /\ ~ occursIn CRLF value.
Proof.
  intros P. rewrite (linePrefix_field _ _ _ _ P).
  destruct (find _ _) as [line|] eqn:F; [|discriminate].
  intros H. inversion H; subst value. clear H.
  split; [apply textBefore_free, (linePrefix_not_empty _ _ P)|].
  intros (x & y & E).
  apply find_some in F as [Hin _].
  destruct (drop_suffix (String.length prefix) line) as [head Hl].
  destruct (textBefore_prefix prefix (drop (String.length prefix) line)) as [tail Ht].
  apply (split_pieces_free _ _ CRLF_not_empty _ Hin
           (String.append head x) (String.append y tail)).
  rewrite Hl at 1. rewrite Ht at 1. rewrite E.
  now rewrite !append_assoc.
Qed.

Lemma prefixed_field_free_witness :
  ~ occursIn "TTL  " "A Widget" /\ ~ occursIn CRLF "A Widget".
Proof.
  apply (prefixed_field_free
           (String.concat CRLF ["PNO  12345"; "TTL  A Widget"; EmptyString])
           None InventionTitle "TTL  " "A Widget"); vm_compute; reflexivity.
Defined.

(** ** Documents with another root *)

(** X14. The delimiter rule accepts the root tag in any letter case, the
    lookup paths only as they are written: a document without the
    property of the root name (as the one of a record written with
    [<patdoc>]) gives the record of which every field is [null]. *)
Theorem foreign_root_gives_null_record :
  (forall props,
     lookup "us-patent-grant" props = JUndefined ->
     toSchemaData (Version4.processedPatentData (JObj props)) = nullRecord)
  /\ (forall props,
        lookup "PATDOC" props = JUndefined ->
        toSchemaData (Version2.processedPatentData (JObj props) None) = nullRecord).
Proof.
  split; intros props H;
    unfold Version4.processedPatentData, Version2.processedPatentData,
      processTries, toSchemaData, nullRecord, fromFields;
    simpl; rewrite H; reflexivity.
Qed.

Lemma foreign_root_gives_null_record_witness :
  toSchemaData
    (Version2.processedPatentData (JObj [("patdoc", JObj [("SDOBI", JArr [])])]) None)
  = nullRecord.
Proof.
  apply (proj2 foreign_root_gives_null_record). reflexivity.
Defined.

(** * Properties of the processor *)

(** ** The file that tracks the processed archives *)

Lemma files_withFile_same (fs : FileSystem) (path contents : string) :
  files (withFile fs path contents) path = Some contents.
Proof. simpl. now rewrite String.eqb_refl. Qed.

Lemma existsSync_withFile_same (fs : FileSystem) (path contents : string) :
  existsSync (withFile fs path contents) path = true.
Proof. unfold existsSync. now rewrite files_withFile_same. Qed.

Lemma existsSync_withFile (fs : FileSystem) (path contents p : string) :
  existsSync fs p = true -> existsSync (withFile fs path contents) p = true.
Proof.
  unfold existsSync. simpl. destruct (String.eqb p path); [reflexivity | trivial].
Qed.

Lemma existsSync_withDirectory_same (fs : FileSystem) (directory : string) :
  existsSync (withDirectory fs directory) directory = true.
Proof.
  unfold existsSync. simpl. rewrite String.eqb_refl. now destruct (files fs directory).
Qed.

Lemma writeFileSync_existing (dirname : string -> string) (fs : FileSystem)
    (path text contents : string) :
  files fs path = Some text ->
  writeFileSync dirname fs path contents = Done (withFile fs path contents).
Proof. unfold writeFileSync. now intros ->. Qed.

Lemma writeFileSync_new (dirname : string -> string) (fs : FileSystem)
    (path contents : string) :
  existsSync fs path = false ->
  writeFileSync dirname fs path contents
  = if directories fs (dirname path)
    then Done (withFile fs path contents)
    else Failed NoSuchFile.
Proof.
  unfold existsSync, writeFileSync. destruct (files fs path); [discriminate|].
  now intros ->.
Qed.

Lemma ensureSyncFile_exists (dirname : string -> string) (path : string)
    (fs : FileSystem) :
  existsSync fs path = true -> Processor.ensureSyncFile dirname path fs = Done fs.
Proof. unfold Processor.ensureSyncFile. now intros ->. Qed.

Lemma includes_urls (urls : list string) (fileUrl : string) :
  Processor.includes (JArr (map JStr urls)) fileUrl
  = Done (existsb (fun s => String.eqb s fileUrl) urls).
Proof.
  simpl. f_equal. induction urls as [|u urls IH]; simpl; [reflexivity | now rewrite IH].
Qed.

Lemma stringify_urls (urls : list string) :
  stringify (JArr (map JStr urls)) = Some (urlsJson urls).
Proof.
  unfold urlsJson. simpl. rewrite map_map. reflexivity.
Qed.

(** X15. Asked about a URL when the tracking file does not exist, the
    processor makes the file with the text of the empty list and answers
    that the URL has not been processed, when the directory of the file
    exists; when it does not, the write throws, the exception leaves
    [isInSyncFile] and nothing is made. *)
Theorem fresh_ledger_is_empty (dirname : string -> string)
    (JSON_parse : string -> completion JsValue)
    (usptoSyncFilePath fileUrl : string) (fs : FileSystem) :
  existsSync fs usptoSyncFilePath = false ->
  (directories fs (dirname usptoSyncFilePath) = true ->
   JSON_parse "[]" = Done (JArr []) ->
   Processor.isInSyncFile dirname JSON_parse usptoSyncFilePath fileUrl fs
   = (withFile fs usptoSyncFilePath "[]", Done false))
  /\ (directories fs (dirname usptoSyncFilePath) = false ->
      Processor.isInSyncFile dirname JSON_parse usptoSyncFilePath fileUrl fs
      = (fs, Failed NoSuchFile)).
Proof.
  intros E. unfold Processor.isInSyncFile, Processor.ensureSyncFile. rewrite E.
  cbn [negb]. rewrite (writeFileSync_new _ _ _ _ E). split.
  - intros D P. rewrite D. unfold readFileSync.
    rewrite files_withFile_same, P. reflexivity.
  - intros D. now rewrite D.
Qed.

Lemma fresh_ledger_is_empty_witness :
  Processor.isInSyncFile slashDirname ledgerParser "sync.json" "a.zip" emptyFileSystem
  = (withFile emptyFileSystem "sync.json" "[]", Done false)
  /\ Processor.isInSyncFile slashDirname ledgerParser "no/such/dir/sync.json" "a.zip"
       emptyFileSystem
     = (emptyFileSystem, Failed NoSuchFile).
Proof.
  split.
  - apply (proj1 (fresh_ledger_is_empty slashDirname ledgerParser "sync.json" "a.zip"
                    emptyFileSystem eq_refl)); reflexivity.
  - apply (proj2 (fresh_ledger_is_empty slashDirname ledgerParser
                    "no/such/dir/sync.json" "a.zip" emptyFileSystem eq_refl)).
    reflexivity.
Defined.

(** X16. When the tracking file holds a list of URLs, the processor answers
    whether the URL is in the list, and leaves the file system as it is but
    for the making of the file. *)
Theorem lookup_is_membership (dirname : string -> string)
    (JSON_parse : string -> completion JsValue)
    (usptoSyncFilePath fileUrl : string) (fs fs1 : FileSystem) (urls : list string) :
  Processor.ensureSyncFile dirname usptoSyncFilePath fs = Done fs1 ->
  ledgerHolds JSON_parse usptoSyncFilePath fs1 urls ->
  exists found,
    Processor.isInSyncFile dirname JSON_parse usptoSyncFilePath fileUrl fs
    = (fs1, Done found)
    /\ (found = true <-> In fileUrl urls).
Proof.
  intros E (text & F & P). unfold Processor.isInSyncFile, readFileSync.
  rewrite E, F, P, includes_urls. eexists. split; [reflexivity|].
  rewrite existsb_exists. split.
  - intros (u & Hin & Hu). apply String.eqb_eq in Hu. now subst.
  - intros Hin. exists fileUrl. split; [exact Hin | apply String.eqb_refl].
Qed.

Lemma lookup_is_membership_witness :
  exists found,
    Processor.isInSyncFile slashDirname ledgerParser "sync.json" "b.zip"
      (ledgerFileSystem ["a.zip"; "b.zip"])
    = (ledgerFileSystem ["a.zip"; "b.zip"], Done found)
    /\ (found = true <-> In "b.zip" ["a.zip"; "b.zip"]).
Proof.
  apply lookup_is_membership; [reflexivity|].
  eexists. split; vm_compute; reflexivity.
Defined.

(** X17. Saving a URL writes the list with the URL added at its end, also
    when the URL is in the list already (the list is not a set), and
    touches no other file. *)
Theorem save_appends (dirname : string -> string)
    (JSON_parse : string -> completion JsValue)
    (usptoSyncFilePath fileUrl : string) (fs fs1 : FileSystem) (urls : list string) :
  Processor.ensureSyncFile dirname usptoSyncFilePath fs = Done fs1 ->
  ledgerHolds JSON_parse usptoSyncFilePath fs1 urls ->
  Processor.saveToSyncFile dirname JSON_parse usptoSyncFilePath fileUrl fs
  = (withFile fs1 usptoSyncFilePath (urlsJson (urls ++ [fileUrl])), Done tt).
Proof.
  intros E (text & F & P). unfold Processor.saveToSyncFile, readFileSync.
  rewrite E, F, P. cbn [Processor.push].
  change [JStr fileUrl] with (map JStr [fileUrl]).
  rewrite <- map_app, stringify_urls.
  now rewrite (writeFileSync_existing _ _ _ _ _ F).
Qed.

Lemma save_appends_witness :
  Processor.saveToSyncFile slashDirname ledgerParser "sync.json" "a.zip"
    (ledgerFileSystem ["a.zip"])
  = (withFile (ledgerFileSystem ["a.zip"]) "sync.json"
       (urlsJson (["a.zip"] ++ ["a.zip"])),
     Done tt).
Proof.
  apply save_appends; [reflexivity|].
  eexists. split; vm_compute; reflexivity.
Defined.

(** X18. A URL that has been saved is found afterwards, and so is every URL
    that was in the list before, as long as the parser reads back the text
    that was written. *)
Theorem saved_url_is_found (dirname : string -> string)
    (JSON_parse : string -> completion JsValue)
    (usptoSyncFilePath fileUrl : string) (fs fs1 : FileSystem) (urls : list string) :
  Processor.ensureSyncFile dirname usptoSyncFilePath fs = Done fs1 ->
  ledgerHolds JSON_parse usptoSyncFilePath fs1 urls ->
  JSON_parse (urlsJson (urls ++ [fileUrl])) = Done (JArr (map JStr (urls ++ [fileUrl]))) ->
  let fs' :=
    fst (Processor.saveToSyncFile dirname JSON_parse usptoSyncFilePath fileUrl fs) in
  forall url, In url (urls ++ [fileUrl]) ->
  Processor.isInSyncFile dirname JSON_parse usptoSyncFilePath url fs' = (fs', Done true).
Proof.
  intros E H P fs' url Hin. subst fs'. rewrite (save_appends _ _ _ _ _ _ _ E H).
  cbn [fst]. set (fs2 := withFile _ _ _).
  assert (E2 : Processor.ensureSyncFile dirname usptoSyncFilePath fs2 = Done fs2)
    by apply ensureSyncFile_exists, existsSync_withFile_same.
  assert (L : ledgerHolds JSON_parse usptoSyncFilePath fs2 (urls ++ [fileUrl])).
  { exists (urlsJson (urls ++ [fileUrl])). split; [|exact P].
    apply files_withFile_same. }
  destruct (lookup_is_membership _ _ _ url _ _ _ E2 L) as (found & Ef & Hf).
  rewrite Ef. apply Hf in Hin. now rewrite Hin.
Qed.

Lemma saved_url_is_found_witness :
  Processor.isInSyncFile slashDirname ledgerParser "sync.json" "b.zip"
    (fst (Processor.saveToSyncFile slashDirname ledgerParser "sync.json" "b.zip"
            (ledgerFileSystem ["a.zip"])))
  = (fst (Processor.saveToSyncFile slashDirname ledgerParser "sync.json" "b.zip"
            (ledgerFileSystem ["a.zip"])),
     Done true).
Proof.
  apply (saved_url_is_found slashDirname ledgerParser "sync.json" "b.zip"
           (ledgerFileSystem ["a.zip"]) (ledgerFileSystem ["a.zip"]) ["a.zip"]).
  - reflexivity.
  - eexists. split; vm_compute; reflexivity.
  - vm_compute. reflexivity.
  - right. now left.
Defined.

(** ** Saving to a local directory *)

Lemma files_writeFileSync (dirname : string -> string) (fs fs' : FileSystem)
    (path contents p c : string) :
  writeFileSync dirname fs path contents = Done fs' ->
  existsSync fs path = false ->
  files fs p = Some c -> files fs' p = Some c.
Proof.
  intros W E H. rewrite (writeFileSync_new _ _ _ _ E) in W.
  destruct (directories fs (dirname path)); [|discriminate].
  inversion W; subst fs'. simpl.
  destruct (String.eqb_spec p path) as [->|]; [|exact H].
  unfold existsSync in E. now rewrite H in E.
Qed.

Lemma files_mkdirSync (dirname : string -> string) (fs fs' : FileSystem)
    (directory p : string) :
  mkdirSync dirname fs directory = Done fs' -> files fs' p = files fs p.
Proof.
  unfold mkdirSync. destruct (existsSync fs directory); [discriminate|].
  destruct (directories fs (dirname directory)); [|discriminate].
  intros H. now inversion H.
Qed.

(** X19. Saving to a local directory never changes or removes a file that
    is there, whether the save completes or throws: the contents are written
    only when no file of that name exists. *)
Theorem save_never_overwrites (dirname : string -> string)
    (path_join : string -> string -> string)
    (directory : option string) (fileName contents : string) (fs : FileSystem)
    (p c : string) :
  files fs p = Some c ->
  files (fst (Processor.saveToLocalDirectory dirname path_join directory fileName
                contents fs)) p
  = Some c.
Proof.
  intros H. unfold Processor.saveToLocalDirectory.
  destruct directory as [d|]; [|exact H].
  destruct (if negb (existsSync fs d) then mkdirSync dirname fs d else Done fs)
    as [fs0|e] eqn:M; [|exact H].
  assert (H0 : files fs0 p = Some c).
  { destruct (existsSync fs d); cbn [negb] in M.
    - now inversion M; subst.
    - now rewrite (files_mkdirSync _ _ _ _ p M). }
  destruct (existsSync fs0 (path_join d fileName)) eqn:E; cbn [negb]; [exact H0|].
  destruct (writeFileSync dirname fs0 (path_join d fileName) contents) as [fs1|e] eqn:W;
    cbn [fst]; [|exact H0].
  exact (files_writeFileSync _ _ _ _ _ _ _ W E H0).
Qed.

Lemma save_never_overwrites_witness :
  files (fst (Processor.saveToLocalDirectory slashDirname slashJoin (Some "xml")
                "ipg1.xml" "new" cacheFileSystem)) "xml/ipg1.xml"
  = Some "old".
Proof. apply save_never_overwrites. reflexivity. Defined.

(** X20. [mkdirSync] is not recursive: when the directory is missing and the
    directory above it is missing too, the save throws and makes nothing.
    When the directory above exists, a save into a missing directory makes
    the directory and writes the file.  And after any save that completes,
    the directory and the file exist, and a second save under the same name
    changes nothing, whatever its contents. *)
Theorem second_save_changes_nothing (dirname : string -> string)
    (path_join : string -> string -> string)
    (directory fileName contents contents' : string) (fs : FileSystem) :
  (existsSync fs directory = false ->
   directories fs (dirname directory) = false ->
   Processor.saveToLocalDirectory dirname path_join (Some directory) fileName contents fs
   = (fs, Failed NoSuchFile))
  /\ (existsSync fs directory = false ->
      directories fs (dirname directory) = true ->
      existsSync fs (path_join directory fileName) = false ->
      path_join directory fileName <> directory ->
      dirname (path_join directory fileName) = directory ->
      Processor.saveToLocalDirectory dirname path_join (Some directory) fileName contents fs
      = (withFile (withDirectory fs directory) (path_join directory fileName) contents,
         Done tt))
  /\ (forall fs1,
        Processor.saveToLocalDirectory dirname path_join (Some directory) fileName
          contents fs = (fs1, Done tt) ->
        existsSync fs1 directory = true
        /\ existsSync fs1 (path_join directory fileName) = true
        /\ Processor.saveToLocalDirectory dirname path_join (Some directory) fileName
             contents' fs1 = (fs1, Done tt)).
Proof.
  split; [|split].
  - intros E D. unfold Processor.saveToLocalDirectory, mkdirSync. now rewrite E, D.
  - intros E D F N J.
    unfold Processor.saveToLocalDirectory, mkdirSync. rewrite E, D. cbn [negb].
    assert (F0 : existsSync (withDirectory fs directory) (path_join directory fileName)
                 = false).
    { unfold existsSync in *. simpl.
      destruct (files fs (path_join directory fileName)); [discriminate|].
      apply String.eqb_neq in N. now rewrite N. }
    rewrite F0. cbn [negb]. rewrite (writeFileSync_new _ _ _ _ F0), J.
    simpl. now rewrite String.eqb_refl.
  - intros fs1 S.
    assert (G : existsSync fs1 directory = true
                /\ existsSync fs1 (path_join directory fileName) = true).
    { unfold Processor.saveToLocalDirectory in S.
      destruct (if negb (existsSync fs directory)
                then mkdirSync dirname fs directory else Done fs) as [fs0|e] eqn:M;
        [|discriminate].
      assert (D0 : existsSync fs0 directory = true).
      { destruct (existsSync fs directory) eqn:E; cbn [negb] in M.
        - now inversion M; subst.
        - unfold mkdirSync in M. rewrite E in M.
          destruct (directories fs (dirname directory)); [|discriminate].
          inversion M; subst. apply existsSync_withDirectory_same. }
      destruct (existsSync fs0 (path_join directory fileName)) eqn:E; cbn [negb] in S.
      - inversion S; subst. now split.
      - rewrite (writeFileSync_new _ _ _ _ E) in S.
        destruct (directories fs0 (dirname (path_join directory fileName)));
          [|discriminate].
        inversion S; subst. split;
          [now apply existsSync_withFile | apply existsSync_withFile_same]. }
    destruct G as [D F]. repeat split; [exact D | exact F|].
    unfold Processor.saveToLocalDirectory. rewrite D. cbn [negb]. now rewrite F.
Qed.

Lemma second_save_changes_nothing_witness :
  Processor.saveToLocalDirectory slashDirname slashJoin (Some "a/b") "f.xml" "new"
    emptyFileSystem
  = (emptyFileSystem, Failed NoSuchFile)
  /\ (existsSync
        (withFile (withDirectory emptyFileSystem "xml") "xml/f.xml" "old") "xml" = true
      /\ existsSync
           (withFile (withDirectory emptyFileSystem "xml") "xml/f.xml" "old")
           (slashJoin "xml" "f.xml") = true
      /\ Processor.saveToLocalDirectory slashDirname slashJoin (Some "xml") "f.xml" "new"
           (withFile (withDirectory emptyFileSystem "xml") "xml/f.xml" "old")
         = (withFile (withDirectory emptyFileSystem "xml") "xml/f.xml" "old", Done tt)).
Proof.
  split.
  - apply (proj1 (second_save_changes_nothing slashDirname slashJoin "a/b" "f.xml"
                    "new" "new" emptyFileSystem)); reflexivity.
  - apply (proj2 (proj2 (second_save_changes_nothing slashDirname slashJoin "xml"
                           "f.xml" "old" "new" emptyFileSystem))).
    vm_compute. reflexivity.
Defined.

(** ** The choice of the converter *)

Lemma Forall2_in_r {A B : Type} (R : A -> B -> Prop) (xs : list A) (ys : list B) (y : B) :
  Forall2 R xs ys -> In y ys -> exists x, In x xs /\ R x y.
Proof.
  induction 1 as [|x y' xs ys Hxy F IH]; intros Hin; [destruct Hin|].
  destruct Hin as [<-|Hin].
  - exists x. split; [now left | exact Hxy].
  - destruct (IH Hin) as (x' & Hx' & Hr). exists x'. split; [now right | exact Hr].
Qed.

(** X21. The processor calls the converters without the name of the file:
    every record it gets from an archive of the older-XML or of the legacy
    dialect (a name that does not start with ipg) has no file name. *)
Theorem fileName_absent_through_processor (parse : string -> outcome JsValue)
    (usptoZipFileName usptoData : string) (out : list UsptoPatentSchemaData)
    (r : UsptoPatentSchemaData) :
  String.eqb (take 3 usptoZipFileName) "ipg" = false ->
  Processor.usptoProcessedData parse usptoZipFileName usptoData = Returned (Some out) ->
  In r out ->
  fileName r = JNull.
Proof.
  intros Hipg. unfold Processor.usptoProcessedData. rewrite Hipg.
  destruct (String.eqb (take 3 usptoZipFileName) "pg0").
  - destruct (convertUsptoVersion2XmlDataToJs parse usptoData None) as [o|e] eqn:C;
      simpl; [|discriminate].
    intros H Hin. inversion H; subst o.
    destruct (Version2_returned _ _ _ _ C) as (sections & _ & F).
    destruct (Forall2_in_r _ _ _ _ F Hin) as (s & _ & Hr).
    unfold version2Record in Hr. destruct (parse s); simpl in Hr; [|discriminate].
    now inversion Hr.
  - destruct (String.eqb (take 6 usptoZipFileName) "pftaps"); [|discriminate].
    rewrite convertUsptoPftapsDataToJs_map. simpl.
    intros H Hin. inversion H; subst out.
    apply in_map_iff in Hin as (s & <- & _). reflexivity.
Qed.

Lemma fileName_absent_through_processor_witness :
  fileName (pftapsRecord None (String.concat CRLF (tl (split widgetBlob CRLF)))) = JNull.
Proof.
  apply (fileName_absent_through_processor sampleParser "pftaps_19900102_wk01.zip"
           widgetBlob
           [pftapsRecord None (String.concat CRLF (tl (split widgetBlob CRLF)))]).
  - reflexivity.
  - vm_compute. reflexivity.
  - now left.
Defined.

(** ** The claims in the MongoDB document *)

(** X22. The claims are encoded twice: the converters put the JSON text of
    the claims in the record, and the MongoDB document holds the JSON text
    of that text, a quoted string.  This holds for every record of the three
    dialects. *)
Theorem stored_claims_encoded_twice :
  (forall section fn,
     exists json,
       patentClaims (pftapsRecord fn section) = JStr json
       /\ storedClaims (pftapsRecord fn section) = JStr (quote json))
  /\ (forall t,
        exists json,
          patentClaims (toSchemaData (Version4.processedPatentData t)) = JStr json
          /\ storedClaims (toSchemaData (Version4.processedPatentData t))
             = JStr (quote json))
  /\ (forall t fn,
        exists json,
          patentClaims (toSchemaData (Version2.processedPatentData t fn)) = JStr json
          /\ storedClaims (toSchemaData (Version2.processedPatentData t fn))
             = JStr (quote json)).
Proof.
  assert (G : forall d, nullOrArray (patentClaims d) ->
              exists json, patentClaims (toSchemaData d) = JStr json
                           /\ storedClaims (toSchemaData d) = JStr (quote json)).
  { intros d H. destruct (stringify_nullOrArray _ H) as [json J].
    exists json. unfold storedClaims, MongoDB.usptoData.
    cbn [lookup String.eqb Ascii.eqb Bool.eqb toSchemaData fromFields patentClaims].
    rewrite J. split; reflexivity. }
  repeat split.
  - intros section fn. apply G, Pftaps_claims.
  - intros t. apply G, Version4_claims.
  - intros t fn. apply G, Version2_claims.
Qed.

(** ** The claims of the XML dialects *)

Lemma arrayMap_all (f : JsValue -> outcome JsValue) (items ys : list JsValue) :
  Forall2 (fun x y => f x = Returned y) items ys ->
  arrayMap (JArr items) f = Returned (JArr ys).
Proof.
  intros F. unfold arrayMap.
  now rewrite (forOf_push_all f _ (fun acc x => eq_refl) _ _ F []).
Qed.

Lemma forOf_push_throws {A B : Type} (g : A -> outcome B) (xs : list A) :
  Exists (fun x => exists e, g x = Thrown e) xs ->
  forall acc,
  exists e, forOf xs (fun acc x => y <- g x ;; Returned (acc ++ [y])) acc = Thrown e.
Proof.
  induction 1 as [x xs (e & He)|x xs H IH]; intros acc; simpl.
  - rewrite He. now exists e.
  - destruct (g x) as [y|e]; simpl; [apply IH | now exists e].
Qed.

Lemma arrayMap_throws (f : JsValue -> outcome JsValue) (items : list JsValue) :
  Exists (fun x => exists e, f x = Thrown e) items ->
  exists e, arrayMap (JArr items) f = Thrown e.
Proof.
  intros H. unfold arrayMap.
  destruct (forOf_push_throws f items H []) as [e ->]. now exists e.
Qed.

(** X23. The claims of an XML record are all or nothing: when the text of
    every claim is found the field is the array of the texts, in the order
    of the claims; when the lookup of one claim throws (a claim without
    claim text), the field is [null] and the other claims are lost with
    it. *)
Theorem xml_claims_all_or_nothing :
  (forall t claims,
     getPath t (Version4.root ++ [Key "claims"; First; Key "claim"])
     = Returned (JArr claims) ->
     (forall texts,
        Forall2 (fun c v => getPath c [Key "claim-text"; First] = Returned v)
          claims texts ->
        patentClaims (Version4.processedPatentData t) = JArr texts)
     /\ (Exists (fun c => exists e, getPath c [Key "claim-text"; First] = Thrown e)
           claims ->
         patentClaims (Version4.processedPatentData t) = JNull))
  /\ (forall t fn claims,
        getPath t [Key "PATDOC"; Key "SDOCL"; First; Key "CL"] = Returned (JArr claims) ->
        (forall texts,
           Forall2 (fun c v =>
                      getPath c [Key "CLM"; First; Key "PARA"; First; Key "PTEXT";
                                 First; Key "PDAT"; First] = Returned v)
             claims texts ->
           patentClaims (Version2.processedPatentData t fn) = JArr texts)
        /\ (Exists (fun c => exists e,
                      getPath c [Key "CLM"; First; Key "PARA"; First; Key "PTEXT";
                                 First; Key "PDAT"; First] = Thrown e)
              claims ->
            patentClaims (Version2.processedPatentData t fn) = JNull)).
Proof.
  split.
  - intros t claims P. split.
    + intros texts F.
      unfold Version4.processedPatentData, processTries.
      cbn [patentClaims fromFields Version4.tries]. rewrite P. cbn [bind].
      now rewrite (arrayMap_all _ _ _ F).
    + intros E.
      unfold Version4.processedPatentData, processTries.
      cbn [patentClaims fromFields Version4.tries]. rewrite P. cbn [bind].
      now destruct (arrayMap_throws _ _ E) as [e ->].
  - intros t fn claims P. split.
    + intros texts F.
      unfold Version2.processedPatentData, processTries.
      cbn [patentClaims fromFields Version2.tries]. rewrite P. cbn [bind].
      now rewrite (arrayMap_all _ _ _ F).
    + intros E.
      unfold Version2.processedPatentData, processTries.
      cbn [patentClaims fromFields Version2.tries]. rewrite P. cbn [bind].
      now destruct (arrayMap_throws _ _ E) as [e ->].
Qed.

Lemma xml_claims_all_or_nothing_witness :
  patentClaims (Version4.processedPatentData (grantWithClaims twoClaimElements))
  = JNull.
Proof.
  refine (proj2 (proj1 xml_claims_all_or_nothing (grantWithClaims twoClaimElements)
                   twoClaimElements eq_refl) _).
  apply Exists_cons_tl, Exists_cons_hd. exists TypeError. reflexivity.
Defined.

(** X24. In a claim section of several lines the text after the last
    claim-number marker never reaches the claims: a text line at the end of
    the section leaves the claims as the lines before it made them. *)
Theorem text_after_last_marker_lost (claimLines : list string) (claimLine : string)
    (st : Pftaps.ClaimState) :
  claimLines <> [] ->
  textLine claimLine = true ->
  forOf claimLines (Pftaps.claimStep (List.length (claimLines ++ [claimLine])))
    Pftaps.initialClaimState = Returned st ->
  Pftaps.assembleClaims (claimLines ++ [claimLine])
  = Returned (map trim (Pftaps.claimData st)).
Proof.
  intros Hne Ht Hloop. unfold Pftaps.assembleClaims.
  rewrite forOf_app, Hloop. cbn [bind forOf].
  rewrite (claimStep_text _ _ _ Ht). cbn [bind Pftaps.claimData].
  replace (List.length (claimLines ++ [claimLine]) =? 1)%nat with false; [reflexivity|].
  symmetry. apply Nat.eqb_neq. rewrite length_app. simpl.
  destruct claimLines; [congruence | simpl; lia].
Qed.

Lemma text_after_last_marker_lost_witness :
  Pftaps.assembleClaims (["NUM  1."] ++ ["PA1  A widget comprising X."])
  = Returned (map trim []).
Proof.
  apply (text_after_last_marker_lost ["NUM  1."] "PA1  A widget comprising X."
           {| Pftaps.claimData := []; Pftaps.claimNumber := "1.";
              Pftaps.accumulatedClaimLine := EmptyString |}).
  - discriminate.
  - reflexivity.
  - vm_compute. reflexivity.
Defined.
